(** * Batch image generator scripts: [generate.py] and [generate2.py]

    A shallow embedding of the two scripts and the properties of their
    slugifier, file naming, image request, batch loop, gallery renderer
    and entry point.

    Python [str] values are lists of Unicode code points; [bytes] values
    are lists of octets.  Effects (environment, network, output directory,
    error stream) are threaded explicitly.

    What is assumed of the platform: POSIX paths; a file system without
    symbolic links and [..] steps, on which a directory can be made and a
    file written wherever no regular file is in the way, and where the
    names of the records are not the names of directories; a standard
    output that takes every progress line. *)

From Stdlib Require Import ZArith NArith String Ascii.
From Stdlib Require Decimal DecimalPos DecimalN.
From stdpp Require Import base list gmap.

Local Open Scope N_scope.

(** * The scripts *)

(** ** Strings *)

(** A Python [str]: a sequence of code points. *)
Abbreviation str := (list N).
(** A Python [bytes]: a sequence of octets. *)
Abbreviation bytes := (list N).

(** An ASCII literal as a [str]. *)
Definition u (s : string) : str := map N_of_ascii (list_ascii_of_string s).

Definition dq : str := [34].
Definition nl : str := [10].
Definition em_dash : str := [8212].

Module Str.

(** [sep.join(parts)] *)
Fixpoint join (sep : str) (parts : list str) : str :=
  match parts with
  | [] => []
  | [p] => p
  | p :: ps => p ++ sep ++ join sep ps
  end.

(** Membership of the character class [[a-z0-9]]. *)
Definition is_lower_or_digit (c : N) : bool :=
  ((97 <=? c) && (c <=? 122)) || ((48 <=? c) && (c <=? 57)).

Definition is_upper (c : N) : bool := (65 <=? c) && (c <=? 90).

(** Code points that [str.strip()] removes (those with [str.isspace()]). *)
Definition is_space (c : N) : bool :=
  ((9 <=? c) && (c <=? 13)) || ((28 <=? c) && (c <=? 32))
  || (c =? 133) || (c =? 160) || (c =? 5760)
  || ((8192 <=? c) && (c <=? 8202))
  || (c =? 8232) || (c =? 8233) || (c =? 8239) || (c =? 8287) || (c =? 12288).

(** [str.lower()] on one code point.  The ASCII capitals, U+0130 and
    U+212A are the code points whose lowercase form contains an ASCII
    character.  Every other code point lowers to code points outside
    ASCII, which the callers here treat like the original, so it is kept
    as it is. *)
Definition lower_cp (c : N) : str :=
  if is_upper c then [c + 32]
  else if c =? 304 then [105; 775]
  else if c =? 8490 then [107]
  else [c].

Definition lower (s : str) : str := flat_map lower_cp s.

Fixpoint lstrip_by (p : N -> bool) (s : str) : str :=
  match s with
  | [] => []
  | c :: t => if p c then lstrip_by p t else s
  end.

Definition rstrip_by (p : N -> bool) (s : str) : str :=
  rev (lstrip_by p (rev s)).

Definition strip_by (p : N -> bool) (s : str) : str :=
  rstrip_by p (lstrip_by p s).

(** [s.strip()] *)
Definition strip (s : str) : str := strip_by is_space s.

(** [s.strip(chars)] *)
Definition strip_chars (chars : str) (s : str) : str :=
  strip_by (fun c => bool_decide (c ∈ chars)) s.

(** What a maximal run of class characters (held reversed in [run])
    becomes: the replacement when the run is long enough to match, the
    run itself otherwise. *)
Definition flush_run (least : nat) (repl : str) (run : str) : str :=
  match run with
  | [] => []
  | _ => if (least <=? length run)%nat then repl else rev run
  end.

Fixpoint sub_runs_from (p : N -> bool) (least : nat) (repl : str)
    (run : str) (text : str) : str :=
  match text with
  | [] => flush_run least repl run
  | c :: t =>
      if p c then sub_runs_from p least repl (c :: run) t
      else flush_run least repl run ++ c :: sub_runs_from p least repl [] t
  end.

(** [re.sub(pattern, repl, text)] for a pattern that is a character class
    repeated at least [least] (>= 1) times, greedily: every maximal run
    of class characters of length at least [least] is replaced by
    [repl]. *)
Definition re_sub_runs (p : N -> bool) (least : nat) (repl : str)
    (text : str) : str :=
  sub_runs_from p least repl [] text.

Fixpoint uint_digits (d : Decimal.uint) : str :=
  match d with
  | Decimal.Nil => []
  | Decimal.D0 d => 48 :: uint_digits d
  | Decimal.D1 d => 49 :: uint_digits d
  | Decimal.D2 d => 50 :: uint_digits d
  | Decimal.D3 d => 51 :: uint_digits d
  | Decimal.D4 d => 52 :: uint_digits d
  | Decimal.D5 d => 53 :: uint_digits d
  | Decimal.D6 d => 54 :: uint_digits d
  | Decimal.D7 d => 55 :: uint_digits d
  | Decimal.D8 d => 56 :: uint_digits d
  | Decimal.D9 d => 57 :: uint_digits d
  end.

(** Decimal digits of a natural number, as [str(n)] prints them. *)
Definition decimal (n : N) : str := uint_digits (N.to_uint n).

(** [str(z)] for an [int]. *)
Definition of_int (z : Z) : str :=
  if (z <? 0)%Z then 45 :: decimal (Z.abs_N z) else decimal (Z.abs_N z).

(** [format(z, "0{width}d")]: sign first, then zeros up to the width. *)
Definition format_0d (width : nat) (z : Z) : str :=
  let d := decimal (Z.abs_N z) in
  if (z <? 0)%Z
  then 45 :: replicate (width - 1 - length d) 48 ++ d
  else replicate (width - length d) 48 ++ d.

End Str.

(** ** Paths, as [pathlib] spells them on POSIX *)

Module Path.

(** The pieces between the ['/'] of a text. *)
Fixpoint split (s : str) : list str :=
  match s with
  | [] => [[]]
  | c :: t =>
      if c =? 47 then [] :: split t
      else
        match split t with
        | [] => [[c]]
        | piece :: pieces => (c :: piece) :: pieces
        end
  end.

(** The components of a path: the pieces that are not empty and not
    ["."]. *)
Definition parts (s : str) : list str :=
  List.filter (fun piece => negb (bool_decide (piece = []) || bool_decide (piece = u ".")))
    (split s).

(** The root: ["//"] for exactly two leading slashes, ["/"] for one and for
    three or more, none for a relative path. *)
Definition root (s : str) : str :=
  match s with
  | 47 :: 47 :: 47 :: _ => u "/"
  | 47 :: 47 :: _ => u "//"
  | 47 :: _ => u "/"
  | _ => []
  end.

(** [str(Path(s))] *)
Definition norm (s : str) : str :=
  match root s, parts s with
  | [], [] => u "."
  | r, ps => r ++ Str.join (u "/") ps
  end.

(** [str(Path(dir) / name)], for a directory as [norm] spells it and a name
    of one component. *)
Definition child (dir name : str) : str :=
  if bool_decide (dir = u ".") then name
  else
    match last dir with
    | Some 47 => dir ++ name
    | _ => dir ++ u "/" ++ name
    end.

End Path.

(** ** [slugify] (identical in both scripts) *)

Definition not_slug_alnum (c : N) : bool := negb (Str.is_lower_or_digit c).
Definition is_dash (c : N) : bool := c =? 45.

Definition slugify (text : str) : str :=
  let text := Str.strip (Str.lower text) in
  let text := Str.re_sub_runs not_slug_alnum 1 (u "-") text in
  let text := Str.strip_chars (u "-") (Str.re_sub_runs is_dash 2 (u "-") text) in
  match text with
  | [] => u "logo"
  | _ => text
  end.

(** ** Data model *)

Record PromptRecord := {
  p_id : Z;
  p_title : str;
  p_prompt : str
}.

Record GeneratedItem := {
  it_id : Z;
  it_title : str;
  it_prompt : str;
  it_file : str
}.

(** The file name of a record: [f"{p['id']:02d}-{slugify(p['title'])[:n]}.png"],
    with [n = 60] in [generate.py] and [n = 70] in [generate2.py]. *)
Definition fname_cut (n : nat) (p : PromptRecord) : str :=
  Str.format_0d 2 (p_id p) ++ u "-" ++ take n (slugify (p_title p)) ++ u ".png".

Definition fname1 : PromptRecord -> str := fname_cut 60.
Definition fname2 : PromptRecord -> str := fname_cut 70.

Definition item_of (fname : PromptRecord -> str) (p : PromptRecord) : GeneratedItem :=
  {| it_id := p_id p; it_title := p_title p; it_prompt := p_prompt p;
     it_file := fname p |}.

(** ** JSON values, as [json.loads] returns them *)

#[warnings="-register-all"]
Inductive json :=
| JNull
| JBool (b : bool)
| JInt (z : Z)
| JFloat (repr : str)   (* a float, known by its [repr] *)
| JStr (s : str)
| JList (items : list json)
| JDict (fields : list (str * json)).   (* keys in insertion order, no key twice *)

Module Json.

(** Python truth value. *)
Definition truthy (v : json) : bool :=
  match v with
  | JNull => false
  | JBool b => b
  | JInt z => negb (z =? 0)%Z
  | JFloat r => negb (bool_decide (r = u "0.0") || bool_decide (r = u "-0.0"))
  | JStr s => negb (bool_decide (s = []))
  | JList items => match items with [] => false | _ => true end
  | JDict fields => match fields with [] => false | _ => true end
  end.

Fixpoint lookup_key (key : str) (fields : list (str * json)) : option json :=
  match fields with
  | [] => None
  | (k, v) :: rest => if bool_decide (k = key) then Some v else lookup_key key rest
  end.

Definition bslash : str := [92].

Definition hex_digit (n : N) : N := if n <? 10 then 48 + n else 87 + n.

(** [format(n, "04x")] for [n < 65536]. *)
Definition hex4 (n : N) : str :=
  [hex_digit (n / 4096 mod 16); hex_digit (n / 256 mod 16);
   hex_digit (n / 16 mod 16); hex_digit (n mod 16)].

(** One code point inside a JSON string literal, with [ensure_ascii]. *)
Definition escape_cp (c : N) : str :=
  if c =? 34 then bslash ++ dq
  else if c =? 92 then bslash ++ bslash
  else if c =? 10 then bslash ++ u "n"
  else if c =? 13 then bslash ++ u "r"
  else if c =? 9 then bslash ++ u "t"
  else if c =? 8 then bslash ++ u "b"
  else if c =? 12 then bslash ++ u "f"
  else if (32 <=? c) && (c <=? 126) then [c]
  else if c <? 65536 then bslash ++ u "u" ++ hex4 c
  else
    let n := c - 65536 in
    bslash ++ u "u" ++ hex4 (55296 + (n / 1024) mod 1024)
    ++ bslash ++ u "u" ++ hex4 (56320 + n mod 1024).

Definition dumps_str (s : str) : str := dq ++ flat_map escape_cp s ++ dq.

(** A float: [float.__repr__], but [NaN], [Infinity] and [-Infinity] for
    the values that are not finite. *)
Definition dumps_float (repr : str) : str :=
  if bool_decide (repr = u "nan") then u "NaN"
  else if bool_decide (repr = u "inf") then u "Infinity"
  else if bool_decide (repr = u "-inf") then u "-Infinity"
  else repr.

(** [json.dumps(v, indent=indent)] at nesting depth [level]. *)
Fixpoint dumps_at (indent : option nat) (level : nat) (v : json) : str :=
  let opening :=
    match indent with
    | None => []
    | Some n => nl ++ replicate (n * S level) 32
    end in
  let between :=
    match indent with
    | None => u ", "
    | Some n => u "," ++ nl ++ replicate (n * S level) 32
    end in
  let closing :=
    match indent with
    | None => []
    | Some n => nl ++ replicate (n * level) 32
    end in
  match v with
  | JNull => u "null"
  | JBool true => u "true"
  | JBool false => u "false"
  | JInt z => Str.of_int z
  | JFloat r => dumps_float r
  | JStr s => dumps_str s
  | JList [] => u "[]"
  | JList items =>
      u "[" ++ opening
      ++ Str.join between (map (dumps_at indent (S level)) items)
      ++ closing ++ u "]"
  | JDict [] => u "{}"
  | JDict fields =>
      u "{" ++ opening
      ++ Str.join between
           (map (fun kv => match kv with
                           | (k, x) => dumps_str k ++ u ": " ++ dumps_at indent (S level) x
                           end) fields)
      ++ closing ++ u "}"
  end.

Definition dumps (indent : option nat) (v : json) : str := dumps_at indent 0 v.

End Json.

(** ** Exceptions and outcomes *)

#[warnings="-register-all"]
Inductive exn :=
| RuntimeError (msg : str) (cause : option exn)      (* [raise RuntimeError(msg) from cause] *)
| HTTPError (code : Z) (reason : str) (body : str)   (* [body]: what [e.read().decode(...)] gives *)
| URLError (reason : str)
| IndexError
| KeyError
| TypeError
| AttributeError
| UnicodeEncodeError
| FileExistsError
| NotADirectoryError
| OtherError (name : str).

Inductive outcome (A : Type) :=
| Returns (a : A)
| Raises (e : exn).
Arguments Returns {A} a.
Arguments Raises {A} e.

#[global] Instance outcome_ret : MRet outcome := fun A a => Returns a.
#[global] Instance outcome_bind : MBind outcome := fun A B f r =>
  match r with
  | Returns a => f a
  | Raises e => Raises e
  end.

(** [str(e)] for the exceptions that [except urllib.error.URLError] catches
    ([HTTPError] is a subclass of [URLError]); [None] for the others. *)
Definition url_error_str (e : exn) : option str :=
  match e with
  | URLError reason => Some (u "<urlopen error " ++ reason ++ u ">")
  | HTTPError code reason _ => Some (u "HTTP Error " ++ Str.of_int code ++ u ": " ++ reason)
  | _ => None
  end.

(** ** The world outside the scripts *)

Record world := {
  environ : gmap str str;                        (* [os.environ] *)
  now : str;                                     (* [datetime.now().strftime("%Y-%m-%d-%H-%M-%S")] *)
  read_prompts : str -> outcome (list PromptRecord);
      (* [json.loads(Path(name).read_text(...))]; the records are taken to be
         well-typed, as the data model has them *)
  post : nat -> str -> str -> outcome json;
      (* the n-th POST to the vendor, given the Authorization header and the
         body: the decoded JSON answer, or the exception of [urlopen],
         [read], [decode] or [json.loads] *)
  fetch : nat -> json -> outcome bytes;          (* the n-th [urlopen(url).read()] *)
  b64decode : json -> outcome bytes              (* [base64.b64decode], not modelled further *)
}.

Inductive file_data :=
| Bytes (b : bytes)
| Text (s : str).     (* written with [write_text(..., encoding="utf-8")] *)

Definition file_size_positive (d : file_data) : bool :=
  match d with
  | Bytes [] | Text [] => false
  | _ => true
  end.

Inductive err_entry :=
| Line (s : str)          (* [print(s, file=sys.stderr)] *)
| Traceback (e : exn).    (* the interpreter's report of an uncaught exception *)

Record state := {
  files : gmap (str * str) file_data;
      (* the regular files, by directory (as [pathlib] spells it) and name;
         a directory is there when something was made or written in it *)
  posts : list (str * str);             (* POST requests made: header and body *)
  fetched : list json;                  (* URLs fetched *)
  stderr : list err_entry
}.

Definition M (A : Type) : Type := state -> state * outcome A.

#[global] Instance M_ret : MRet M := fun A a st => (st, Returns a).
#[global] Instance M_bind : MBind M := fun A B f m st =>
  match m st with
  | (st', Returns a) => f a st'
  | (st', Raises e) => (st', Raises e)
  end.

Definition raise {A} (e : exn) : M A := fun st => (st, Raises e).
Definition lift {A} (r : outcome A) : M A := fun st => (st, r).

(** [try: m except ... as e: h e] *)
Definition try_except {A} (m : M A) (h : exn -> M A) : M A := fun st =>
  match m st with
  | (st', Raises e) => h e st'
  | r => r
  end.

Definition with_post (req : str * str) (st : state) : state :=
  {| files := files st; posts := posts st ++ [req];
     fetched := fetched st; stderr := stderr st |}.

Definition with_fetch (url : json) (st : state) : state :=
  {| files := files st; posts := posts st;
     fetched := fetched st ++ [url]; stderr := stderr st |}.

Definition with_file (dir name : str) (d : file_data) (st : state) : state :=
  {| files := <[(dir, name) := d]> (files st); posts := posts st;
     fetched := fetched st; stderr := stderr st |}.

Definition with_err (e : err_entry) (st : state) : state :=
  {| files := files st; posts := posts st; fetched := fetched st;
     stderr := stderr st ++ [e] |}.

Definition http_post (w : world) (auth body : str) : M json := fun st =>
  (with_post (auth, body) st, post w (length (posts st)) auth body).

Definition url_fetch (w : world) (url : json) : M bytes := fun st =>
  (with_fetch url st, fetch w (length (fetched st)) url).

(** Is there a file of positive size under this name? *)
Definition present (st : state) (dir name : str) : bool :=
  match files st !! (dir, name) with
  | Some d => file_size_positive d
  | None => false
  end.

(** [path.exists() and path.stat().st_size > 0] *)
Definition exists_nonempty (dir name : str) : M bool := fun st =>
  (st, Returns (present st dir name)).

(** The path of [dir] is a regular file. *)
Definition is_file (st : state) (dir : str) : bool :=
  existsb (fun kv => bool_decide (Path.child kv.1.1 kv.1.2 = dir))
    (map_to_list (files st)).

(** A directory above [dir] is a regular file. *)
Definition under_file (st : state) (dir : str) : bool :=
  existsb (fun kv => bool_decide ((Path.child kv.1.1 kv.1.2 ++ u "/") `prefix_of` dir))
    (map_to_list (files st)).

(** [dir.mkdir(parents=True, exist_ok=True)]: it fails where a regular file
    is in the way.  A directory without files leaves no trace in the
    state. *)
Definition mkdir (dir : str) : M unit := fun st =>
  if under_file st dir then (st, Raises NotADirectoryError)
  else if is_file st dir then (st, Raises FileExistsError)
  else (st, Returns tt).

(** [(dir / name).write_bytes(b)] *)
Definition write_bytes (dir name : str) (b : bytes) : M unit := fun st =>
  (with_file dir name (Bytes b) st, Returns tt).

(** Code points that UTF-8 does not encode: the surrogates. *)
Definition is_surrogate (c : N) : bool := (55296 <=? c) && (c <=? 57343).

(** [(dir / name).write_text(text, encoding="utf-8")]: the file is opened,
    and so emptied, before the text is encoded. *)
Definition write_text (dir name : str) (text : str) : M unit := fun st =>
  if existsb is_surrogate text
  then (with_file dir name (Text []) st, Raises UnicodeEncodeError)
  else (with_file dir name (Text text) st, Returns tt).

Definition print_err (s : str) : M unit := fun st =>
  (with_err (Line s) st, Returns tt).

(** ** [request_image] *)

(** [v.get(key, default)] *)
Definition py_get (v : json) (key : str) (dflt : json) : outcome json :=
  match v with
  | JDict fields => Returns (default dflt (Json.lookup_key key fields))
  | _ => Raises AttributeError
  end.

(** [v[0]] *)
Definition py_first (v : json) : outcome json :=
  match v with
  | JList [] => Raises IndexError
  | JList (x :: _) => Returns x
  | JStr [] => Raises IndexError
  | JStr (c :: _) => Returns (JStr [c])
  | JDict _ => Raises KeyError
  | _ => Raises TypeError
  end.

(** The lines
      [data = payload.get("data", [{}])[0]]
      [b64 = data.get("b64_json")]
      [url = data.get("url")] *)
Definition payload_fields (payload : json) : outcome (json * json) :=
  data ← py_get payload (u "data") (JList [JDict []]) ≫= py_first;
  b64 ← py_get data (u "b64_json") JNull;
  url ← py_get data (u "url") JNull;
  mret (b64, url).

Definition request_body_with (prompt model size quality style : str) : str :=
  Json.dumps None
    (JDict [(u "model", JStr model); (u "prompt", JStr prompt);
            (u "size", JStr size); (u "n", JInt 1);
            (u "quality", JStr quality); (u "style", JStr style)]).

(** The body with the defaults of [request_image]. *)
Definition request_body (prompt : str) : str :=
  request_body_with prompt (u "dall-e-3") (u "1024x1024") (u "hd") (u "vivid").

Definition request_auth (api_key : str) : str := u "Bearer " ++ api_key.

(** The POST with its [except urllib.error.HTTPError] handler. *)
Definition post_images (w : world) (api_key prompt model size quality style : str)
    : M json :=
  try_except
    (http_post w (request_auth api_key) (request_body_with prompt model size quality style))
    (fun e =>
       match e with
       | HTTPError code _ body =>
           raise (RuntimeError
                    (u "OpenAI Images API failed (" ++ Str.of_int code ++ u "): " ++ body)
                    (Some e))
       | _ => raise e
       end).

(** [RuntimeError(f"Unexpected response: {json.dumps(payload)[:500]}")] *)
Definition unexpected_response (payload : json) : exn :=
  RuntimeError (u "Unexpected response: " ++ take 500 (Json.dumps None payload)) None.

(** ** Gallery page, shared text *)

(** The lines of a template, each with its newline. *)
Definition lines (ls : list str) : str := flat_map (fun l => l ++ nl) ls.

(** The CSS rules both pages have. *)
Definition style_rules : list str :=
  [ u "  :root { color-scheme: dark; }";
    u "  body { margin: 24px; font: 14px/1.4 ui-sans-serif, system-ui; background: #0b0f14; color: #e8edf2; }";
    u "  h1 { font-size: 20px; margin: 0 0 8px; }";
    u "  p { margin: 0 0 18px; color: #b7c2cc; }";
    u "  .grid { display: grid; grid-template-columns: repeat(auto-fill, minmax(260px, 1fr)); gap: 16px; }";
    u "  figure { margin: 0; padding: 12px; border: 1px solid #1e2a36; border-radius: 14px; background: #0f1620; }";
    u "  img { width: 100%; height: auto; border-radius: 10px; display: block; background: #ffffff; }";
    u "  figcaption { margin-top: 10px; color: #b7c2cc; }" ].

(** The link and image of a figure block, up to the caption. *)
Definition figure_open (file : str) : str :=
  u "<figure>" ++ nl
  ++ u "  <a href=" ++ dq ++ file ++ dq ++ u "><img src=" ++ dq ++ file ++ dq
  ++ u " loading=" ++ dq ++ u "lazy" ++ dq ++ u " /></a>" ++ nl.

(** An entry of [generated.json]. *)
Definition item_json (it : GeneratedItem) : json :=
  JDict [(u "id", JInt (it_id it)); (u "title", JStr (it_title it));
         (u "prompt", JStr (it_prompt it)); (u "file", JStr (it_file it))].

Definition manifest_text (items : list GeneratedItem) : str :=
  Json.dumps (Some 2%nat) (JList (map item_json items)).

(** [raise SystemExit(main())]: the exit status of the process. *)
Definition exit_status (main : M Z) (st : state) : state * Z :=
  match main st with
  | (st', Returns code) => (st', code)
  | (st', Raises e) => (with_err (Traceback e) st', 1%Z)
  end.

Module Gen1.

Definition request_image_with (w : world)
    (api_key prompt model size quality style : str) : M bytes :=
  payload ← post_images w api_key prompt model size quality style;
  '(b64, url) ← lift (payload_fields payload);
  if Json.truthy b64 then lift (b64decode w b64)
  else if Json.truthy url then
    try_except (url_fetch w url)
      (fun e =>
         match url_error_str e with
         | Some s => raise (RuntimeError (u "Failed to download image: " ++ s) (Some e))
         | None => raise e
         end)
  else raise (unexpected_response payload).

Definition request_image (w : world) (api_key prompt : str) : M bytes :=
  request_image_with w api_key prompt (u "dall-e-3") (u "1024x1024") (u "hd") (u "vivid").

(** One figure block: the inner f-string of [write_gallery], stripped. *)
Definition figure (it : GeneratedItem) : str :=
  Str.strip
    (nl ++ figure_open (it_file it)
     ++ u "  <figcaption><strong>" ++ Str.format_0d 2 (it_id it) ++ u ".</strong> "
     ++ it_title it ++ u "<br/><small>" ++ it_prompt it
     ++ u "</small></figcaption>" ++ nl
     ++ u "</figure>" ++ nl).

Definition page_head (out_dir : str) : str :=
  lines ([ u "<!doctype html>";
           u "<meta charset=" ++ dq ++ u "utf-8" ++ dq ++ u " />";
           u "<title>T Alchemy " ++ em_dash ++ u " Logo Exploration</title>";
           u "<style>" ]
         ++ style_rules
         ++ [ u "  small { color: #8ea2b2; }";
              u "</style>";
              u "<h1>T Alchemy " ++ em_dash ++ u " 50 Logo Concepts (PNG)</h1>";
              u "<p>Generated concepts for review. Files are in <code>" ++ out_dir
                ++ u "</code>.</p>";
              u "<div class=" ++ dq ++ u "grid" ++ dq ++ u ">" ]).

Definition page_tail : str := nl ++ u "</div>" ++ nl.

(** The text that [write_gallery] writes. *)
Definition gallery_html (out_dir : str) (items : list GeneratedItem) : str :=
  let thumbs := Str.join nl (map figure items) in
  page_head out_dir ++ thumbs ++ page_tail.

Definition write_gallery (out_dir : str) (items : list GeneratedItem) : M unit :=
  write_text out_dir (u "index.html") (gallery_html out_dir items).

(** The [for] loop of [main]. *)
Fixpoint main_loop (w : world) (out_dir api_key : str)
    (prompts : list PromptRecord) (items_out : list GeneratedItem)
    : M (list GeneratedItem) :=
  match prompts with
  | [] => mret items_out
  | p :: rest =>
      img_bytes ← request_image w api_key (p_prompt p);
      write_bytes out_dir (fname1 p) img_bytes;;
      main_loop w out_dir api_key rest (items_out ++ [item_of fname1 p])
  end.

(** [main].  The progress lines on standard output leave no trace in the
    state. *)
Definition main (w : world) : M Z :=
  let api_key := Str.strip (default [] (environ w !! u "OPENAI_API_KEY")) in
  match api_key with
  | [] => print_err (u "Missing OPENAI_API_KEY");; mret 2%Z
  | _ =>
      prompts ← lift (read_prompts w (u "prompts.json"));
      let out_dir := u "out/" ++ now w in
      mkdir out_dir;;
      items_out ← main_loop w out_dir api_key prompts [];
      write_text out_dir (u "generated.json") (manifest_text items_out);;
      write_gallery out_dir items_out;;
      mret 0%Z
  end.

End Gen1.

Module Gen2.

Definition request_image_with (w : world)
    (api_key prompt model size quality style : str) : M bytes :=
  payload ← post_images w api_key prompt model size quality style;
  '(b64, url) ← lift (payload_fields payload);
  if Json.truthy b64 then lift (b64decode w b64)
  else if Json.truthy url then url_fetch w url
  else raise (unexpected_response payload).

Definition request_image (w : world) (api_key prompt : str) : M bytes :=
  request_image_with w api_key prompt (u "dall-e-3") (u "1024x1024") (u "hd") (u "vivid").

Definition figure (it : GeneratedItem) : str :=
  Str.strip
    (nl ++ figure_open (it_file it)
     ++ u "  <figcaption><strong>" ++ Str.format_0d 2 (it_id it) ++ u ".</strong> "
     ++ it_title it ++ u "</figcaption>" ++ nl
     ++ u "</figure>" ++ nl).

Definition page_head : str :=
  lines ([ u "<!doctype html>";
           u "<meta charset=" ++ dq ++ u "utf-8" ++ dq ++ u " />";
           u "<title>T Alchemy " ++ em_dash ++ u " Logo Exploration (Lockups)</title>";
           u "<style>" ]
         ++ style_rules
         ++ [ u "</style>";
              u "<h1>T Alchemy " ++ em_dash ++ u " 50 Lockup Concepts (B/W PNG)</h1>";
              u "<p>Generated concepts for review.</p>";
              u "<div class=" ++ dq ++ u "grid" ++ dq ++ u ">" ]).

Definition page_tail : str := nl ++ u "</div>" ++ nl.

Definition gallery_html (items : list GeneratedItem) : str :=
  let thumbs := Str.join nl (map figure items) in
  page_head ++ thumbs ++ page_tail.

Definition write_gallery (out_dir : str) (items : list GeneratedItem) : M unit :=
  write_text out_dir (u "index.html") (gallery_html items).

(** The [for] loop of [main]: a record whose file is there and not empty is
    skipped. *)
Fixpoint main_loop (w : world) (out_dir api_key : str)
    (prompts : list PromptRecord) (items_out : list GeneratedItem)
    : M (list GeneratedItem) :=
  match prompts with
  | [] => mret items_out
  | p :: rest =>
      let fname := fname2 p in
      found ← exists_nonempty out_dir fname;
      (if found : bool then mret tt
       else
         img_bytes ← request_image w api_key (p_prompt p);
         write_bytes out_dir fname img_bytes);;
      main_loop w out_dir api_key rest (items_out ++ [item_of fname2 p])
  end.

(** The directory of the run: [Path(latest)] when [LATEST_OUT_DIR] is set
    (resume), a fresh time-stamped one otherwise. *)
Definition out_dir_of (w : world) : str :=
  match Str.strip (default [] (environ w !! u "LATEST_OUT_DIR")) with
  | [] => u "out/" ++ now w
  | latest => Path.norm latest
  end.

(** [main], with the progress lines left out as in [generate.py]. *)
Definition main (w : world) : M Z :=
  let api_key := Str.strip (default [] (environ w !! u "OPENAI_API_KEY")) in
  match api_key with
  | [] => print_err (u "Missing OPENAI_API_KEY");; mret 2%Z
  | _ =>
      prompts ← lift (read_prompts w (u "prompts2-lockup.json"));
      let out_dir := out_dir_of w in
      mkdir out_dir;;
      items_out ← main_loop w out_dir api_key prompts [];
      write_text out_dir (u "generated.json") (manifest_text items_out);;
      write_gallery out_dir items_out;;
      mret 0%Z
  end.

End Gen2.

(** * Vocabulary of the properties *)

(** ** The shape of a slug *)

Definition slug_char (c : N) : bool := Str.is_lower_or_digit c || is_dash c.

(** No two neighbouring ['-']. *)
Fixpoint no_double_dash (s : str) : bool :=
  match s with
  | [] => true
  | a :: t =>
      match t with
      | [] => true
      | b :: _ => negb (is_dash a && is_dash b)
      end && no_double_dash t
  end.

(** Code points that leave a letter or digit of [[a-z0-9]] in the lowered
    text: ASCII letters and digits, U+0130 and U+212A.  All of them are
    alphanumeric ([str.isalnum()]). *)
Definition slug_alnum (c : N) : bool :=
  Str.is_lower_or_digit c || Str.is_upper c || (c =? 304) || (c =? 8490).

Abbreviation sub1_from := (Str.sub_runs_from not_slug_alnum 1 (u "-")).
Abbreviation sub2_from := (Str.sub_runs_from is_dash 2 (u "-")).

(** A well-formed slug: non-empty, over [[a-z0-9-]], no doubled, leading or
    trailing ['-']. *)
Definition slug_ok (s : str) : Prop :=
  s <> [] /\ Forall (fun c => slug_char c = true) s
  /\ no_double_dash s = true
  /\ head s <> Some 45 /\ last s <> Some 45.

(** ** Requests, resumed runs and entry points *)

(** The state after the request for [prompt] was posted. *)
Definition posted (api_key prompt : str) (st : state) : state :=
  with_post (request_auth api_key, request_body prompt) st.

(** The answer the vendor gives to the request for [prompt] in state [st]. *)
Definition answer (w : world) (api_key prompt : str) (st : state) : outcome json :=
  post w (length (posts st)) (request_auth api_key) (request_body prompt).

(** The record's file is missing or empty. *)
Definition missing (st : state) (dir : str) (p : PromptRecord) : bool :=
  negb (present st dir (fname2 p)).


(** The request that the record's prompt is sent with. *)
Definition request_of (api_key : str) (p : PromptRecord) : str * str :=
  (request_auth api_key, request_body (p_prompt p)).

(** Every image request of the run succeeds. *)
Definition always_image (w : world) (api_key : str) : Prop :=
  forall prompt st, exists img,
    (Gen2.request_image w api_key prompt st).2 = Returns img.

(** [os.environ.get("OPENAI_API_KEY", "").strip()] *)
Definition credential (w : world) : str :=
  Str.strip (default [] (environ w !! u "OPENAI_API_KEY")).

Definition missing_key_line : err_entry := Line (u "Missing OPENAI_API_KEY").

Definition manifest_at (st : state) (dir : str) : option file_data :=
  files st !! (dir, u "generated.json").

(** A text that UTF-8 encodes: one without surrogates. *)
Definition encodable (text : str) : bool := negb (existsb is_surrogate text).

(** No regular file is in the way of the directory. *)
Definition creatable (st : state) (dir : str) : bool :=
  negb (under_file st dir) && negb (is_file st dir).

(** What [mkdir] raises when a regular file is in the way. *)
Definition mkdir_error (st : state) (dir : str) : exn :=
  if under_file st dir then NotADirectoryError else FileExistsError.

(** The end of [main], after the loop: the manifest and the gallery are
    written. *)
Definition finish1 (dir : str) (items : list GeneratedItem) (st : state) : state :=
  with_file dir (u "index.html") (Text (Gen1.gallery_html dir items))
    (with_file dir (u "generated.json") (Text (manifest_text items)) st).

Definition finish2 (dir : str) (items : list GeneratedItem) (st : state) : state :=
  with_file dir (u "index.html") (Text (Gen2.gallery_html items))
    (with_file dir (u "generated.json") (Text (manifest_text items)) st).

(** The end of a [main] whose page UTF-8 does not encode: the manifest is
    written, [index.html] is left empty. *)
Definition spoilt (dir : str) (items : list GeneratedItem) (st : state) : state :=
  with_file dir (u "index.html") (Text [])
    (with_file dir (u "generated.json") (Text (manifest_text items)) st).

(** The identifying fields of a record. *)
Definition id_title (p : PromptRecord) : Z * str := (p_id p, p_title p).

(** The name that a record gets: zero-padded id, ['-'], the slug of the
    title cut to [cut] characters, [".png"]. *)
Definition expected_name (cut : nat) (p : PromptRecord) : str :=
  Str.format_0d 2 (p_id p) ++ u "-" ++ take cut (slugify (p_title p)) ++ u ".png".

(** Two completed runs of a script over records with the same ids and
    titles write manifests whose [file] fields coincide and follow
    [expected_name]; nothing else of the two worlds needs to agree. *)
Definition names_deterministic (main : world -> M Z) (prompts_file : str)
    (dir_of : world -> str) (cut : nat) : Prop :=
  forall (w1 w2 : world) (st1 st2 st1' st2' : state) (ps1 ps2 : list PromptRecord),
    read_prompts w1 prompts_file = Returns ps1 ->
    read_prompts w2 prompts_file = Returns ps2 ->
    map id_title ps1 = map id_title ps2 ->
    main w1 st1 = (st1', Returns 0%Z) ->
    main w2 st2 = (st2', Returns 0%Z) ->
    exists items1 items2,
      manifest_at st1' (dir_of w1) = Some (Text (manifest_text items1))
      /\ manifest_at st2' (dir_of w2) = Some (Text (manifest_text items2))
      /\ map it_file items1 = map it_file items2
      /\ map it_file items1 = map (expected_name cut) ps1.

(** ** The gallery page *)

(** [a] occurs in [s], character for character. *)
Definition infix_of (a s : str) : Prop := exists pre post, s = pre ++ a ++ post.

(** The caption of a block: id, title and, in [generate.py], the prompt. *)
Definition caption1 (it : GeneratedItem) : str :=
  u "  <figcaption><strong>" ++ Str.format_0d 2 (it_id it) ++ u ".</strong> "
  ++ it_title it ++ u "<br/><small>" ++ it_prompt it ++ u "</small></figcaption>" ++ nl.

Definition caption2 (it : GeneratedItem) : str :=
  u "  <figcaption><strong>" ++ Str.format_0d 2 (it_id it) ++ u ".</strong> "
  ++ it_title it ++ u "</figcaption>" ++ nl.

(** A figure block as it stands in the page: from [<figure>] to
    [</figure>], with the link and the image of the entry's file and its
    caption. *)
Definition figure_block (caption : GeneratedItem -> str) (it : GeneratedItem) : str :=
  figure_open (it_file it) ++ caption it ++ u "</figure>".

Definition gallery_at (st : state) (dir : str) : option file_data :=
  files st !! (dir, u "index.html").

(** Does [s] start with [pat]? *)
Fixpoint starts_with (pat s : str) : bool :=
  match pat, s with
  | [], _ => true
  | _ :: _, [] => false
  | a :: pat', b :: s' => (a =? b) && starts_with pat' s'
  end.

(** The number of places of [s] where [pat] (not empty) occurs. *)
Fixpoint occurrences (pat s : str) : nat :=
  match s with
  | [] => 0
  | _ :: t => ((if starts_with pat s then 1 else 0) + occurrences pat t)%nat
  end.

(** [html.count("<figure>")] *)
Abbreviation figure_count := (occurrences (u "<figure>")).

(** [s] is shorter than [pat] and starts it. *)
Definition proper_prefix (s pat : str) : bool :=
  (length s <? length pat)%nat && starts_with s pat.

(** No end of [l] is the beginning of an occurrence that could go on after [l]. *)
Fixpoint no_partial (pat l : str) : bool :=
  match l with
  | [] => true
  | _ :: t => negb (proper_prefix l pat) && no_partial pat t
  end.

(** What follows cannot continue an occurrence begun before it. *)
Definition breaks (pat g : str) : bool :=
  match g with
  | [] => true
  | r :: _ => negb (bool_decide (r ∈ tail pat))
  end.

(** The texts of an entry hold no [<figure>]. *)
Definition plain1 (it : GeneratedItem) : Prop :=
  figure_count (it_file it) = 0%nat /\ figure_count (it_title it) = 0%nat
  /\ figure_count (it_prompt it) = 0%nat.

Definition plain2 (it : GeneratedItem) : Prop :=
  figure_count (it_file it) = 0%nat /\ figure_count (it_title it) = 0%nat.

(** ** Words of a title *)

(** Does [t] start with a character of [[a-z0-9]]? *)
Definition starts_word (t : str) : bool :=
  match t with
  | c :: _ => Str.is_lower_or_digit c
  | [] => false
  end.

(** Put [c] in front of the first word when that word goes on right after
    [c], in front of all words as a word of its own otherwise. *)
Definition push_char (c : N) (continues : bool) (ws : list str) : list str :=
  if continues then
    match ws with
    | w :: ws' => (c :: w) :: ws'
    | [] => [[c]]
    end
  else [c] :: ws.

(** The maximal runs of [[a-z0-9]] of [t], in order:
    [re.findall("[a-z0-9]+", t)]. *)
Fixpoint words (t : str) : list str :=
  match t with
  | [] => []
  | c :: t' =>
      if Str.is_lower_or_digit c then push_char c (starts_word t') (words t')
      else words t'
  end.

(** ** Reading a file name back *)

(** The decimal digits at the start of [s]. *)
Fixpoint read_uint (s : str) : Decimal.uint :=
  match s with
  | [] => Decimal.Nil
  | c :: t =>
      if c =? 48 then Decimal.D0 (read_uint t)
      else if c =? 49 then Decimal.D1 (read_uint t)
      else if c =? 50 then Decimal.D2 (read_uint t)
      else if c =? 51 then Decimal.D3 (read_uint t)
      else if c =? 52 then Decimal.D4 (read_uint t)
      else if c =? 53 then Decimal.D5 (read_uint t)
      else if c =? 54 then Decimal.D6 (read_uint t)
      else if c =? 55 then Decimal.D7 (read_uint t)
      else if c =? 56 then Decimal.D8 (read_uint t)
      else if c =? 57 then Decimal.D9 (read_uint t)
      else Decimal.Nil
  end.

(** The number a file name starts with: an optional ['-'], then digits. *)
Definition name_id (name : str) : Z :=
  match name with
  | 45 :: t => (- Z.of_N (N.of_uint (read_uint t)))%Z
  | _ => Z.of_N (N.of_uint (read_uint name))
  end.

(** Characters of a file name: [[a-z0-9]], ['-'] and ['.']. *)
Definition name_char (c : N) : bool :=
  Str.is_lower_or_digit c || (c =? 45) || (c =? 46).

(** ** Files of a run *)

(** There is a file under this name, empty or not. *)
Definition stored (st : state) (dir name : str) : Prop :=
  is_Some (files st !! (dir, name)).

(** The places where the loop of a script may write. *)
Definition targets (fname : PromptRecord -> str) (dir : str)
    (prompts : list PromptRecord) : list (str * str) :=
  map (fun p => (dir, fname p)) prompts.


(** ** Text of the manifest and of a request *)

(** Visible ASCII and the space. *)
Definition printable (c : N) : bool := (32 <=? c) && (c <=? 126).

(** Printable, or the line feed. *)
Definition plain_text (c : N) : bool := printable c || (c =? 10).

(** * Worlds and records for the examples *)

(** Worlds for the examples: fixed prompts, one fixed answer to every
    request, one fixed result of every download. *)
Definition png : bytes := [137; 80; 78; 71].

Definition demo_world (env : gmap str str) (prompts : list PromptRecord)
    (reply : outcome json) (download : outcome bytes) : world :=
  {| environ := env;
     now := u "2025-01-02-03-04-05";
     read_prompts := fun _ => Returns prompts;
     post := fun _ _ _ => reply;
     fetch := fun _ _ => download;
     b64decode := fun _ => Returns png |}.

Definition fresh : state :=
  {| files := ∅; posts := []; fetched := []; stderr := [] |}.

Definition bold : PromptRecord :=
  {| p_id := 1; p_title := u "Bold T Mark"; p_prompt := u "a bold letter T" |}.

Definition serif : PromptRecord :=
  {| p_id := 2; p_title := u "Serif & Flame"; p_prompt := u "a serif T with a flame" |}.

Definition inline_reply : outcome json :=
  Returns (JDict [(u "data", JList [JDict [(u "b64_json", JStr (u "iVBORw=="))]])]).

Definition url_reply : outcome json :=
  Returns (JDict [(u "data", JList [JDict [(u "url", JStr (u "https://x/y.png"))]])]).

Definition with_key : gmap str str := {[ u "OPENAI_API_KEY" := u " sk-test " ]}.

Definition resuming : gmap str str :=
  <[ u "LATEST_OUT_DIR" := u "out/earlier" ]> with_key.

Definition earlier_run : state :=
  {| files := {[ (u "out/earlier", u "01-bold-t-mark.png") := Bytes png ]};
     posts := []; fetched := []; stderr := [] |}.

Definition resumed_demo : state * outcome Z :=
  Gen2.main (demo_world resuming [bold; serif] inline_reply (Returns png)) earlier_run.

(** Two different records with one target name: the second one finds the
    file that the first one wrote. *)
Definition bold_again : PromptRecord :=
  {| p_id := 1; p_title := u "Bold T-Mark!"; p_prompt := u "a bolder letter T" |}.




(** The same id and title, another prompt text. *)
Definition bold_reworded : PromptRecord :=
  {| p_id := 1; p_title := u "Bold T Mark"; p_prompt := u "letter T, heavy weight" |}.

Definition first_run : state * outcome Z :=
  Gen1.main (demo_world with_key [bold] url_reply (Returns png)) fresh.

Definition second_run : state * outcome Z :=
  Gen1.main (demo_world resuming [bold_reworded] inline_reply (Returns [])) earlier_run.

Definition no_key : gmap str str := {[ u "OPENAI_API_KEY" := u "   " ]}.

Definition empty_data_reply : outcome json :=
  Returns (JDict [(u "created", JInt 1700000000); (u "data", JList [])]).

Definition markup : GeneratedItem :=
  {| it_id := 7; it_title := u "<b>Salt & Pepper</b>";
     it_prompt := u "<script>alert(1)</script>"; it_file := u "07-b-salt-pepper-b.png" |}.


Definition rejected : exn :=
  HTTPError 400 (u "Bad Request") (u "{error: content_policy_violation}").

Definition both_reply : outcome json :=
  Returns (JDict [(u "data",
                   JList [JDict [(u "url", JStr (u "https://x/y.png"));
                                 (u "b64_json", JStr (u "iVBORw=="))]])]).


(** A world without network: every request fails. *)
Definition offline (env : gmap str str) (prompts : list PromptRecord) : world :=
  demo_world env prompts (Raises (URLError (u "Network is unreachable")))
    (Raises (URLError (u "Network is unreachable"))).


(** A record whose title holds a lone surrogate, as [json.loads] makes of
    an escape like [\ud83d] without its second half. *)
Definition broken : PromptRecord :=
  {| p_id := 3; p_title := u "Half " ++ [55357]; p_prompt := u "a broken title" |}.


(** A state in which the directory named for the resumed run is a file. *)
Definition mistaken : gmap str str :=
  <[ u "LATEST_OUT_DIR" := u "out/earlier/01-bold-t-mark.png" ]> with_key.

(** * Tactics *)

(** Equations between closed terms, checked by evaluation. *)
Ltac vm_refl :=
  match goal with
  | |- ?a = _ => vm_cast_no_check (@eq_refl _ a)
  end.

(** Boolean comparisons on code points, decided by linear arithmetic. *)
Ltac cp_lia :=
  repeat (progress (rewrite ?andb_true_iff, ?orb_true_iff, ?andb_false_iff,
    ?orb_false_iff, ?negb_true_iff, ?negb_false_iff, ?N.leb_le,
    ?N.leb_gt, ?N.eqb_eq, ?N.eqb_neq in * ));
  lia.

Ltac unfold_request :=
  unfold Gen1.request_image, Gen1.request_image_with, Gen2.request_image,
    Gen2.request_image_with, post_images, request_body, try_except, http_post,
    url_fetch, lift, raise, mbind, M_bind in *.

Ltac unfold_loop :=
  unfold mbind, M_bind, mret, M_ret, exists_nonempty, write_bytes in *.

Ltac unfold_main :=
  unfold Gen1.main, Gen2.main, Gen1.write_gallery, Gen2.write_gallery,
    print_err, lift, mbind, M_bind, mret, M_ret, write_text in *.

(** * Examples *)

Example slugify_bold : slugify (u "Bold T Mark") = u "bold-t-mark".
Proof. vm_compute. reflexivity. Qed.

Example slugify_messy : slugify (u "  --Hello,   World!! -- ") = u "hello-world".
Proof. vm_compute. reflexivity. Qed.

Example slugify_symbols : slugify (u "?!*") = u "logo".
Proof. vm_compute. reflexivity. Qed.

Example slugify_kelvin : slugify [8490] = u "k".
Proof. vm_compute. reflexivity. Qed.

Example fname1_bold :
  fname1 {| p_id := 1; p_title := u "Bold T Mark"; p_prompt := u "..." |}
  = u "01-bold-t-mark.png".
Proof. vm_compute. reflexivity. Qed.

Example format_0d_examples :
  Str.format_0d 2 5 = u "05" /\ Str.format_0d 2 123 = u "123"
  /\ Str.format_0d 2 0 = u "00" /\ Str.format_0d 2 (-1) = u "-1"
  /\ Str.format_0d 3 (-5) = u "-05".
Proof. vm_compute. repeat split. Qed.

Example dumps_compact :
  Json.dumps None
    (JDict [(u "data", JList [JDict [(u "url", JStr (u "https://x/y.png"))]; JInt (-3)]);
            (u "ok", JBool true)])
  = u "{" ++ dq ++ u "data" ++ dq ++ u ": [{" ++ dq ++ u "url" ++ dq ++ u ": "
      ++ dq ++ u "https://x/y.png" ++ dq ++ u "}, -3], " ++ dq ++ u "ok" ++ dq
      ++ u ": true}".
Proof. vm_compute. reflexivity. Qed.

Example dumps_indented :
  Json.dumps (Some 2%nat) (JList [JDict [(u "id", JInt 1); (u "t", JStr [233; 10])]])
  = u "[" ++ nl ++ u "  {" ++ nl ++ u "    " ++ dq ++ u "id" ++ dq ++ u ": 1," ++ nl
      ++ u "    " ++ dq ++ u "t" ++ dq ++ u ": " ++ dq ++ Json.bslash ++ u "u00e9"
      ++ Json.bslash ++ u "n" ++ dq ++ nl ++ u "  }" ++ nl ++ u "]".
Proof. vm_compute. reflexivity. Qed.

Example dumps_empty : Json.dumps None (JDict []) = u "{}".
Proof. reflexivity. Qed.

Example demo_run1 :
  exit_status (Gen1.main (demo_world with_key [bold; serif] url_reply (Returns png))) fresh
  = ({| files :=
          {[ (u "out/2025-01-02-03-04-05", u "01-bold-t-mark.png") := Bytes png;
             (u "out/2025-01-02-03-04-05", u "02-serif-flame.png") := Bytes png;
             (u "out/2025-01-02-03-04-05", u "generated.json")
               := Text (manifest_text (map (item_of fname1) [bold; serif]));
             (u "out/2025-01-02-03-04-05", u "index.html")
               := Text (Gen1.gallery_html (u "out/2025-01-02-03-04-05")
                          (map (item_of fname1) [bold; serif])) ]};
        posts := [request_of (u "sk-test") bold; request_of (u "sk-test") serif];
        fetched := [JStr (u "https://x/y.png"); JStr (u "https://x/y.png")];
        stderr := [] |}, 0%Z).
Proof. vm_refl. Qed.

Example figure_block_bold :
  figure_block caption2 (item_of fname2 bold)
  = u "<figure>" ++ nl
    ++ u "  <a href=" ++ dq ++ u "01-bold-t-mark.png" ++ dq ++ u "><img src=" ++ dq
    ++ u "01-bold-t-mark.png" ++ dq ++ u " loading=" ++ dq ++ u "lazy" ++ dq
    ++ u " /></a>" ++ nl
    ++ u "  <figcaption><strong>01.</strong> Bold T Mark</figcaption>" ++ nl
    ++ u "</figure>".
Proof. vm_refl. Qed.

(** * Properties *)

(** ** Facts about stripping and run substitution *)

Section StripFacts.
Variable p : N -> bool.

Lemma lstrip_by_suffix s : Str.lstrip_by p s `suffix_of` s.
Proof.
  induction s as [|c t IH]; simpl; [done|].
  destruct (p c); [by apply suffix_cons_r | done].
Qed.

Lemma lstrip_by_head s c : head (Str.lstrip_by p s) = Some c -> p c = false.
Proof.
  induction s as [|a t IH]; simpl; [done|].
  destruct (p a) eqn:E; [done|]. simpl. by intros [= <-].
Qed.

Lemma lstrip_by_id s :
  (forall c, head s = Some c -> p c = false) -> Str.lstrip_by p s = s.
Proof.
  destruct s as [|a t]; simpl; [done|].
  intros H. by rewrite (H a eq_refl).
Qed.

Lemma lstrip_by_all s :
  Forall (fun c => p c = true) s -> Str.lstrip_by p s = [].
Proof. induction 1 as [|a t Ha _ IH]; simpl; [done|]. by rewrite Ha. Qed.

Lemma rstrip_by_prefix s : Str.rstrip_by p s `prefix_of` s.
Proof.
  unfold Str.rstrip_by.
  destruct (lstrip_by_suffix (rev s)) as [k Hk].
  exists (rev k). apply (f_equal (@rev N)) in Hk.
  by rewrite rev_app_distr, rev_involutive in Hk.
Qed.

Lemma last_rev_head (s : str) : last (rev s) = head s.
Proof. destruct s as [|a t]; simpl; [done|]. by rewrite last_snoc. Qed.

Lemma rstrip_by_last s c : last (Str.rstrip_by p s) = Some c -> p c = false.
Proof. unfold Str.rstrip_by. rewrite last_rev_head. apply lstrip_by_head. Qed.

Lemma rstrip_by_id s :
  (forall c, last s = Some c -> p c = false) -> Str.rstrip_by p s = s.
Proof.
  intros H. unfold Str.rstrip_by. rewrite lstrip_by_id, rev_involutive; [done|].
  intros c Hc. apply H. by rewrite <- (rev_involutive s), last_rev_head.
Qed.

Lemma strip_by_id s :
  (forall c, head s = Some c -> p c = false) ->
  (forall c, last s = Some c -> p c = false) ->
  Str.strip_by p s = s.
Proof.
  intros Hh Hl. unfold Str.strip_by. rewrite (lstrip_by_id s Hh).
  by apply rstrip_by_id.
Qed.

Lemma strip_by_all s :
  Forall (fun c => p c = true) s -> Str.strip_by p s = [].
Proof. intros H. unfold Str.strip_by. by rewrite lstrip_by_all. Qed.

(** The stripped string sits inside the original one. *)
Lemma strip_by_infix s : exists a b, s = a ++ Str.strip_by p s ++ b.
Proof.
  unfold Str.strip_by.
  destruct (lstrip_by_suffix s) as [a Ha].
  destruct (rstrip_by_prefix (Str.lstrip_by p s)) as [b Hb].
  exists a, b. by rewrite <- Hb.
Qed.

Lemma strip_by_head s c : head (Str.strip_by p s) = Some c -> p c = false.
Proof.
  unfold Str.strip_by. intros H.
  destruct (rstrip_by_prefix (Str.lstrip_by p s)) as [b Hb].
  apply (lstrip_by_head s). rewrite Hb.
  destruct (Str.rstrip_by p (Str.lstrip_by p s)); [done|]. exact H.
Qed.

Lemma strip_by_last s c : last (Str.strip_by p s) = Some c -> p c = false.
Proof. apply rstrip_by_last. Qed.

End StripFacts.

(** ** The shape of slugs *)

Lemma is_dash_spec c : is_dash c = true <-> c = 45.
Proof. unfold is_dash. apply N.eqb_eq. Qed.

Lemma slug_char_cases c :
  slug_char c = true -> Str.is_lower_or_digit c = true \/ c = 45.
Proof.
  unfold slug_char. intros [H|H]%orb_true_iff; [by left|right].
  by apply is_dash_spec.
Qed.

Lemma lower_or_digit_not_dash c :
  Str.is_lower_or_digit c = true -> is_dash c = false.
Proof. unfold Str.is_lower_or_digit, is_dash. intros H. cp_lia. Qed.

Lemma no_double_dash_cons_other c s :
  is_dash c = false -> no_double_dash (c :: s) = no_double_dash s.
Proof. intros H. simpl. rewrite H. by destruct s. Qed.

Lemma no_double_dash_dash_other c s :
  is_dash c = false -> no_double_dash (45 :: c :: s) = no_double_dash s.
Proof.
  intros H. change (45 :: c :: s) with ([45] ++ c :: s). simpl.
  rewrite H. simpl. by destruct s.
Qed.

Lemma no_double_dash_app a b :
  no_double_dash (a ++ b) = true ->
  no_double_dash a = true /\ no_double_dash b = true.
Proof.
  induction a as [|x a IH]; simpl; [done|].
  intros [H1 H2]%andb_true_iff. destruct (IH H2) as [Ha Hb].
  split; [|done]. rewrite Ha, andb_true_r.
  destruct a as [|y a]; [done|]. exact H1.
Qed.

Lemma no_double_dash_infix s :
  no_double_dash s = true -> ~ exists a b, s = a ++ [45; 45] ++ b.
Proof.
  intros H (a & b & ->).
  apply no_double_dash_app in H as [_ H]. simpl in H. discriminate.
Qed.

Lemma flush1_cases run :
  Str.flush_run 1 (u "-") run = [] \/ Str.flush_run 1 (u "-") run = [45].
Proof. destruct run; [by left | by right]. Qed.

(** The first substitution leaves only [[a-z0-9-]], with no ['-'] twice in
    a row. *)
Lemma sub1_from_shape text : forall run,
  Forall (fun c => slug_char c = true) (sub1_from run text)
  /\ no_double_dash (sub1_from run text) = true.
Proof.
  induction text as [|c t IH]; intros run; simpl.
  - destruct (flush1_cases run) as [-> | ->]; split; by repeat constructor.
  - destruct (not_slug_alnum c) eqn:E; [apply IH|].
    apply negb_false_iff in E.
    + destruct (IH []) as [F D].
      assert (slug_char c = true) as Hc by (unfold slug_char; by rewrite E).
      pose proof (lower_or_digit_not_dash c E) as Hd.
      destruct (flush1_cases run) as [-> | ->]; simpl app.
      * split; [by constructor|]. by rewrite no_double_dash_cons_other.
      * split; [by repeat constructor|]. by rewrite no_double_dash_dash_other.
Qed.

(** Both substitutions leave a string of slug characters without doubled
    ['-'] as it is. *)
Lemma sub1_from_id s : forall run,
  run = [] \/ run = [45] ->
  Forall (fun c => slug_char c = true) s ->
  no_double_dash (run ++ s) = true ->
  sub1_from run s = run ++ s.
Proof.
  induction s as [|c t IH]; intros run Hrun F D; simpl.
  - destruct Hrun as [-> | ->]; reflexivity.
  - apply Forall_cons in F as [Hc F].
    destruct (slug_char_cases c Hc) as [E | ->].
    + replace (not_slug_alnum c) with false
        by (unfold not_slug_alnum; by rewrite E).
      rewrite (IH []); [| by left | done |].
      * destruct Hrun as [-> | ->]; reflexivity.
      * apply no_double_dash_app in D as [_ D].
        by rewrite no_double_dash_cons_other in D by by apply lower_or_digit_not_dash.
    + change (not_slug_alnum 45) with true. cbv iota.
      destruct Hrun as [-> | ->]; [|simpl in D; discriminate].
      rewrite (IH [45]); [done | by right | done | exact D].
Qed.

Lemma sub2_from_id s : forall run,
  run = [] \/ run = [45] ->
  no_double_dash (run ++ s) = true ->
  sub2_from run s = run ++ s.
Proof.
  induction s as [|c t IH]; intros run Hrun D; simpl.
  - destruct Hrun as [-> | ->]; reflexivity.
  - destruct (is_dash c) eqn:E.
    + apply is_dash_spec in E as ->.
      destruct Hrun as [-> | ->]; [|simpl in D; discriminate].
      rewrite (IH [45]); [done | by right | exact D].
    + rewrite (IH []); [| by left |].
      * destruct Hrun as [-> | ->]; reflexivity.
      * apply no_double_dash_app in D as [_ D].
        by rewrite no_double_dash_cons_other in D.
Qed.

(** On text without any [[a-z0-9]] the first substitution leaves at most
    one ['-']. *)
Lemma sub1_from_no_alnum s : forall run,
  Forall (fun c => Str.is_lower_or_digit c = false) s ->
  sub1_from run s = Str.flush_run 1 (u "-") (rev s ++ run).
Proof.
  induction s as [|c t IH]; intros run F; simpl; [done|].
  apply Forall_cons in F as [Hc F].
  replace (not_slug_alnum c) with true by (unfold not_slug_alnum; by rewrite Hc).
  rewrite IH by done. by rewrite <- app_assoc.
Qed.

Lemma in_dash_literal c : bool_decide (c ∈ u "-") = false <-> c <> 45.
Proof.
  change (u "-") with [45]. rewrite bool_decide_eq_false.
  by rewrite list_elem_of_singleton.
Qed.

Lemma slug_char_not_space c : slug_char c = true -> Str.is_space c = false.
Proof. unfold slug_char, Str.is_lower_or_digit, is_dash, Str.is_space. intros H. cp_lia. Qed.

Lemma slug_char_lower c : slug_char c = true -> Str.lower_cp c = [c].
Proof.
  intros H. unfold Str.lower_cp.
  assert (Str.is_upper c = false) as ->
    by (revert H; unfold slug_char, Str.is_lower_or_digit, is_dash, Str.is_upper;
        intros H; cp_lia).
  assert ((c =? 304) = false) as ->
    by (revert H; unfold slug_char, Str.is_lower_or_digit, is_dash; intros H; cp_lia).
  assert ((c =? 8490) = false) as ->
    by (revert H; unfold slug_char, Str.is_lower_or_digit, is_dash; intros H; cp_lia).
  done.
Qed.

Lemma lower_slug s : Forall (fun c => slug_char c = true) s -> Str.lower s = s.
Proof.
  unfold Str.lower. induction 1 as [|c t Hc _ IH]; simpl; [done|].
  by rewrite (slug_char_lower c Hc), IH.
Qed.

Lemma slugify_slug_ok x : slug_ok (slugify x).
Proof.
  unfold slugify, Str.re_sub_runs, Str.strip_chars.
  set (t1 := Str.strip (Str.lower x)).
  destruct (sub1_from_shape t1 []) as [F D].
  rewrite (sub2_from_id (sub1_from [] t1) []) by (by left || done).
  simpl app. set (o := sub1_from [] t1) in *.
  set (pd := fun c : N => bool_decide (c ∈ u "-")).
  destruct (strip_by_infix pd o) as (a & b & Ho).
  pose proof (strip_by_head pd o) as Hh.
  pose proof (strip_by_last pd o) as Hl.
  destruct (Str.strip_by pd o) as [|c t] eqn:Et.
  - repeat split; try done; by (vm_compute; repeat constructor).
  - rewrite Ho in F, D.
    apply Forall_app in F as [_ [F _]%Forall_app].
    apply no_double_dash_app in D as [_ [D _]%no_double_dash_app].
    repeat split; try done.
    + intros E. specialize (Hh _ E). by apply in_dash_literal in Hh.
    + intros E. specialize (Hl _ E). by apply in_dash_literal in Hl.
Qed.

(** [slugify] leaves a well-formed slug unchanged. *)
Lemma slugify_fixed s : slug_ok s -> slugify s = s.
Proof.
  intros (Hne & F & D & Hh & Hl).
  unfold slugify, Str.re_sub_runs, Str.strip_chars, Str.strip.
  rewrite (lower_slug s F).
  rewrite (strip_by_id Str.is_space s).
  - rewrite (sub1_from_id s []) by (by left || done). simpl app.
    rewrite (sub2_from_id s []) by (by left || done). simpl app.
    rewrite strip_by_id.
    + by destruct s.
    + intros c Hc. apply in_dash_literal. by intros ->.
    + intros c Hc. apply in_dash_literal. by intros ->.
  - intros c Hc. apply slug_char_not_space.
    destruct s as [|a t]; [done|]. injection Hc as ->.
    by apply Forall_cons in F as [? _].
  - intros c Hc. apply slug_char_not_space.
    apply last_Some in Hc as [l' ->].
    by apply Forall_app in F as [_ [? _]%Forall_cons].
Qed.

Lemma lower_no_alnum x :
  Forall (fun c => slug_alnum c = false) x ->
  Forall (fun c => Str.is_lower_or_digit c = false) (Str.lower x).
Proof.
  unfold Str.lower. induction 1 as [|c t Hc _ IH]; simpl; [done|].
  apply Forall_app. split; [|done].
  unfold slug_alnum in Hc.
  apply orb_false_iff in Hc as [[[H1 H2]%orb_false_iff H3]%orb_false_iff H4].
  unfold Str.lower_cp. rewrite H2, H3, H4. by constructor.
Qed.

Lemma slugify_no_alnum x :
  Forall (fun c => slug_alnum c = false) x -> slugify x = u "logo".
Proof.
  intros H%lower_no_alnum.
  unfold slugify, Str.re_sub_runs, Str.strip.
  destruct (strip_by_infix Str.is_space (Str.lower x)) as (a & b & E).
  rewrite E in H. apply Forall_app in H as [_ [H _]%Forall_app].
  rewrite (sub1_from_no_alnum _ [] H).
  destruct (flush1_cases (rev (Str.strip_by Str.is_space (Str.lower x)) ++ []))
    as [-> | ->]; reflexivity.
Qed.

(** ** Properties of [slugify] *)

(** C2. [slugify] is idempotent: slugifying a slug gives the same slug. *)
Theorem slugify_idempotent (x : str) : slugify (slugify x) = slugify x.
Proof. apply slugify_fixed, slugify_slug_ok. Qed.

(** C3. [slugify] is total; its result is never empty, holds only
    characters of [[a-z0-9-]] (so it is lowercase), has no two ['-'] in a
    row, does not start or end with ['-'], and is the default token
    ["logo"] when the input has no alphanumeric character (in particular
    when it is empty). *)
Theorem slugify_total_shape (x : str) :
  (exists s, slugify x = s /\ s <> [])
  /\ Forall (fun c => Str.is_lower_or_digit c = true \/ c = 45) (slugify x)
  /\ (~ exists a b, slugify x = a ++ u "--" ++ b)
  /\ head (slugify x) <> Some 45
  /\ last (slugify x) <> Some 45
  /\ (Forall (fun c => slug_alnum c = false) x -> slugify x = u "logo").
Proof.
  destruct (slugify_slug_ok x) as (Hne & F & D & Hh & Hl).
  split; [by eexists|].
  split; [|split; [|split; [|split]]]; try done.
  - eapply Forall_impl; [exact F|]. apply slug_char_cases.
  - by apply no_double_dash_infix.
  - apply slugify_no_alnum.
Qed.

Lemma slugify_total_shape_witness :
  slugify [] = u "logo" /\ slugify (u " <*> & !") = u "logo".
Proof.
  split.
  - apply (slugify_total_shape []). constructor.
  - apply (slugify_total_shape (u " <*> & !")). vm_compute. repeat constructor.
Defined.

(** ** The image request *)

(** A payload whose fields cannot be read makes both scripts raise what
    reading them raised. *)
Lemma request_image_fields_raise w api_key prompt st payload e :
  answer w api_key prompt st = Returns payload ->
  payload_fields payload = Raises e ->
  Gen1.request_image w api_key prompt st = (posted api_key prompt st, Raises e)
  /\ Gen2.request_image w api_key prompt st = (posted api_key prompt st, Raises e).
Proof.
  unfold answer, posted. intros Hp Hf. unfold_request.
  by rewrite Hp, Hf.
Qed.

(** Two unusable fields lead both scripts to the last line of
    [request_image]. *)
Lemma request_image_unexpected w api_key prompt st payload b64 url :
  answer w api_key prompt st = Returns payload ->
  payload_fields payload = Returns (b64, url) ->
  Json.truthy b64 = false -> Json.truthy url = false ->
  Gen1.request_image w api_key prompt st
    = (posted api_key prompt st, Raises (unexpected_response payload))
  /\ Gen2.request_image w api_key prompt st
    = (posted api_key prompt st, Raises (unexpected_response payload)).
Proof.
  unfold answer, posted. intros Hp Hf Hb Hu. unfold_request.
  by rewrite Hp, Hf, Hb, Hu.
Qed.

(** A retrieval URL and no inline data: one fetch of that URL. *)
Lemma request_image_fetches w api_key prompt st payload b64 url :
  answer w api_key prompt st = Returns payload ->
  payload_fields payload = Returns (b64, url) ->
  Json.truthy b64 = false -> Json.truthy url = true ->
  let st' := with_fetch url (posted api_key prompt st) in
  let got := fetch w (length (fetched st)) url in
  Gen2.request_image w api_key prompt st = (st', got)
  /\ Gen1.request_image w api_key prompt st
     = (st', match got with
             | Returns img => Returns img
             | Raises e =>
                 match url_error_str e with
                 | Some s =>
                     Raises (RuntimeError (u "Failed to download image: " ++ s) (Some e))
                 | None => Raises e
                 end
             end).
Proof.
  unfold answer, posted. intros Hp Hf Hb Hu. unfold_request.
  rewrite Hp, Hf, Hb, Hu. simpl.
  split; [done|]. destruct (fetch w _ url) as [img|e]; [done|].
  by destruct (url_error_str e).
Qed.

(** What [payload_fields] needs to return: a dict whose ["data"] is absent
    or a list starting with a dict. *)
Lemma payload_fields_returns payload b64 url :
  payload_fields payload = Returns (b64, url) ->
  exists fields first,
    payload = JDict fields
    /\ (Json.lookup_key (u "data") fields = None /\ first = []
        \/ exists others,
             Json.lookup_key (u "data") fields = Some (JList (JDict first :: others)))
    /\ b64 = default JNull (Json.lookup_key (u "b64_json") first)
    /\ url = default JNull (Json.lookup_key (u "url") first).
Proof.
  unfold payload_fields. destruct payload as [| | | | |?|fields]; try done.
  intros H. exists fields. simpl in H.
  destruct (Json.lookup_key (u "data") fields) as [d|] eqn:Ed; simpl in H.
  - destruct d as [| | | |[|? ?]|[|first others]|?]; try done.
    destruct first as [| | | | |?|first]; try done.
    exists first. injection H as <- <-. eauto 10.
  - exists []. injection H as <- <-. eauto 10.
Qed.

(** An image request touches neither the files nor the error stream, and
    posts exactly one request. *)
Lemma request_image_effect w api_key prompt st :
  (let st' := (Gen1.request_image w api_key prompt st).1 in
   files st' = files st /\ stderr st' = stderr st
   /\ posts st' = posts st ++ [(request_auth api_key, request_body prompt)])
  /\ (let st' := (Gen2.request_image w api_key prompt st).1 in
      files st' = files st /\ stderr st' = stderr st
      /\ posts st' = posts st ++ [(request_auth api_key, request_body prompt)]).
Proof.
  unfold_request. unfold url_error_str.
  split; simpl; repeat case_match; simplify_eq; simpl; done.
Qed.

(** ** The batch loops *)

Lemma loop1_step w dir key p rest items st st1 img :
  Gen1.request_image w key (p_prompt p) st = (st1, Returns img) ->
  Gen1.main_loop w dir key (p :: rest) items st
  = Gen1.main_loop w dir key rest (items ++ [item_of fname1 p])
      (with_file dir (fname1 p) (Bytes img) st1).
Proof. intros H. simpl. unfold_loop. by rewrite H. Qed.

Lemma loop1_abort w dir key p rest items st st1 e :
  Gen1.request_image w key (p_prompt p) st = (st1, Raises e) ->
  Gen1.main_loop w dir key (p :: rest) items st = (st1, Raises e).
Proof. intros H. simpl. unfold_loop. by rewrite H. Qed.

Lemma loop2_skip w dir key p rest items st :
  present st dir (fname2 p) = true ->
  Gen2.main_loop w dir key (p :: rest) items st
  = Gen2.main_loop w dir key rest (items ++ [item_of fname2 p]) st.
Proof. intros H. simpl. unfold_loop. by rewrite H. Qed.

Lemma loop2_step w dir key p rest items st st1 img :
  present st dir (fname2 p) = false ->
  Gen2.request_image w key (p_prompt p) st = (st1, Returns img) ->
  Gen2.main_loop w dir key (p :: rest) items st
  = Gen2.main_loop w dir key rest (items ++ [item_of fname2 p])
      (with_file dir (fname2 p) (Bytes img) st1).
Proof. intros H1 H2. simpl. unfold_loop. by rewrite H1, H2. Qed.

Lemma loop2_abort w dir key p rest items st st1 e :
  present st dir (fname2 p) = false ->
  Gen2.request_image w key (p_prompt p) st = (st1, Raises e) ->
  Gen2.main_loop w dir key (p :: rest) items st = (st1, Raises e).
Proof. intros H1 H2. simpl. unfold_loop. by rewrite H1, H2. Qed.

(** A loop that comes to its end has one manifest entry per record, in the
    order of the records. *)
Lemma loop1_returns w dir key prompts : forall items st st' items',
  Gen1.main_loop w dir key prompts items st = (st', Returns items') ->
  items' = items ++ map (item_of fname1) prompts.
Proof.
  induction prompts as [|p rest IH]; intros items st st' items' H.
  - injection H as _ <-. by rewrite app_nil_r.
  - destruct (Gen1.request_image w key (p_prompt p) st) as [st1 [img|e]] eqn:E.
    + rewrite (loop1_step _ _ _ _ _ _ _ _ _ E) in H.
      apply IH in H. by rewrite H, <- app_assoc.
    + by rewrite (loop1_abort _ _ _ _ _ _ _ _ _ E) in H.
Qed.

Lemma loop2_returns w dir key prompts : forall items st st' items',
  Gen2.main_loop w dir key prompts items st = (st', Returns items') ->
  items' = items ++ map (item_of fname2) prompts.
Proof.
  induction prompts as [|p rest IH]; intros items st st' items' H.
  - injection H as _ <-. by rewrite app_nil_r.
  - destruct (present st dir (fname2 p)) eqn:P.
    + rewrite (loop2_skip _ _ _ _ _ _ _ P) in H.
      apply IH in H. by rewrite H, <- app_assoc.
    + destruct (Gen2.request_image w key (p_prompt p) st) as [st1 [img|e]] eqn:E.
      * rewrite (loop2_step _ _ _ _ _ _ _ _ _ P E) in H.
        apply IH in H. by rewrite H, <- app_assoc.
      * by rewrite (loop2_abort _ _ _ _ _ _ _ _ _ P E) in H.
Qed.

(** ** Resuming ([generate2.py]) *)

Lemma present_with_file_ne st dir name name' d :
  name <> name' ->
  present (with_file dir name d st) dir name' = present st dir name'.
Proof.
  intros Hne. unfold present, with_file. simpl.
  rewrite lookup_insert_ne; [done|]. congruence.
Qed.

Lemma present_files_eq st st' dir name :
  files st' = files st -> present st' dir name = present st dir name.
Proof. unfold present. by intros ->. Qed.



(** When every image request succeeds the loop comes to its end. *)
Lemma loop2_completes w dir key prompts : forall items st,
  always_image w key ->
  exists st' items', Gen2.main_loop w dir key prompts items st = (st', Returns items').
Proof.
  induction prompts as [|p rest IH]; intros items st Hok; [by eexists _, _|].
  destruct (present st dir (fname2 p)) eqn:P.
  - rewrite (loop2_skip _ _ _ _ _ _ _ P). by apply IH.
  - destruct (Hok (p_prompt p) st) as [img Himg].
    destruct (Gen2.request_image w key (p_prompt p) st) as [st1 r] eqn:E.
    simpl in Himg. subst r.
    rewrite (loop2_step _ _ _ _ _ _ _ _ _ P E). by apply IH.
Qed.

(** ** ASCII output of [json.dumps] *)

Lemma uint_digits_range d : Forall (fun c => 48 <= c <= 57) (Str.uint_digits d).
Proof. induction d; simpl; constructor; (lia || done). Qed.

Lemma hex_digit_printable n : n < 16 -> printable (Json.hex_digit n) = true.
Proof.
  intros H. unfold Json.hex_digit, printable.
  destruct (n <? 10) eqn:E; cp_lia.
Qed.

Lemma hex4_printable n : Forall (fun c => printable c = true) (Json.hex4 n).
Proof.
  unfold Json.hex4.
  repeat apply Forall_cons_2; try apply Forall_nil_2;
    apply hex_digit_printable; by apply N.mod_lt.
Qed.

Lemma escape_cp_printable c : Forall (fun c => printable c = true) (Json.escape_cp c).
Proof.
  unfold Json.escape_cp.
  repeat (match goal with |- context [if ?b then _ else _] => destruct b eqn:? end);
    rewrite ?Forall_app; repeat split;
    first [ apply hex4_printable
          | by apply (bool_decide_unpack _)
          | apply Forall_cons_2; [done | apply Forall_nil_2] ].
Qed.

Lemma dumps_str_printable s : Forall (fun c => printable c = true) (Json.dumps_str s).
Proof.
  unfold Json.dumps_str. rewrite !Forall_app. split; [by apply (bool_decide_unpack _)|].
  split; [|by apply (bool_decide_unpack _)].
  induction s as [|c s IH]; [done|]. simpl. rewrite Forall_app. split; [|done].
  apply escape_cp_printable.
Qed.

Lemma of_int_printable z : Forall (fun c => printable c = true) (Str.of_int z).
Proof.
  assert (Forall (fun c => printable c = true) (Str.decimal (Z.abs_N z))) as Hd.
  { eapply Forall_impl; [apply uint_digits_range|].
    intros c Hc. unfold printable. simpl in Hc. cp_lia. }
  unfold Str.of_int. destruct (z <? 0)%Z; [by apply Forall_cons_2|done].
Qed.

Lemma printable_plain s :
  Forall (fun c => printable c = true) s -> Forall (fun c => plain_text c = true) s.
Proof.
  intros H. eapply Forall_impl; [exact H|].
  intros c Hc. unfold plain_text. by rewrite Hc.
Qed.

Lemma join_forall (P : N -> Prop) sep parts :
  Forall P sep -> Forall (Forall P) parts -> Forall P (Str.join sep parts).
Proof.
  intros Hsep. induction 1 as [|p ps Hp Hps IH]; [done|].
  destruct ps as [|q qs]; [done|].
  change (Forall P (p ++ sep ++ Str.join sep (q :: qs))).
  rewrite !Forall_app. done.
Qed.

Lemma item_json_plain it :
  Forall (fun c => plain_text c = true) (Json.dumps_at (Some 2%nat) 1 (item_json it)).
Proof.
  unfold item_json. cbn [Json.dumps_at map Str.join].
  rewrite !Forall_app.
  repeat split;
    first [ apply printable_plain, dumps_str_printable
          | apply printable_plain, of_int_printable
          | by apply (bool_decide_unpack _) ].
Qed.

Lemma manifest_plain items :
  Forall (fun c => plain_text c = true) (manifest_text items).
Proof.
  unfold manifest_text, Json.dumps.
  destruct items as [|it its]; [by apply (bool_decide_unpack _)|].
  change (Forall (fun c => plain_text c = true)
            (u "[" ++ (nl ++ replicate 2 32)
             ++ Str.join (u "," ++ nl ++ replicate 2 32)
                  (map (Json.dumps_at (Some 2%nat) 1) (map item_json (it :: its)))
             ++ (nl ++ replicate 0 32) ++ u "]")).
  rewrite !Forall_app.
  repeat split; try by apply (bool_decide_unpack _).
  apply join_forall; [by apply (bool_decide_unpack _)|].
  rewrite map_map. apply Forall_map, Forall_forall. intros x _.
  apply item_json_plain.
Qed.

(** The manifest is always written: its text is ASCII. *)
Lemma manifest_encodable items : encodable (manifest_text items) = true.
Proof.
  unfold encodable. apply negb_true_iff, not_true_iff_false. intros H.
  apply existsb_exists in H as (c & Hin & Hc).
  pose proof (manifest_plain items) as Hp. rewrite Forall_forall in Hp.
  apply list_elem_of_In, Hp in Hin.
  unfold plain_text, printable, is_surrogate in *. cp_lia.
Qed.

(** ** The entry points *)

Lemma main_blank w st :
  credential w = [] ->
  Gen1.main w st = (with_err missing_key_line st, Returns 2%Z)
  /\ Gen2.main w st = (with_err missing_key_line st, Returns 2%Z).
Proof. unfold credential. intros H. unfold_main. by rewrite H. Qed.

Lemma manifest_kept (dir : str) (d d' : file_data) (m : gmap (str * str) file_data) :
  <[(dir, u "index.html") := d']> (<[(dir, u "generated.json") := d]> m)
    !! (dir, u "generated.json") = Some d.
Proof.
  rewrite lookup_insert_ne by (intros [= H]; discriminate H).
  apply lookup_insert_eq.
Qed.

Lemma mkdir_unfold dir st :
  mkdir dir st
  = if creatable st dir then (st, Returns tt) else (st, Raises (mkdir_error st dir)).
Proof.
  unfold mkdir, creatable, mkdir_error.
  by destruct (under_file st dir), (is_file st dir).
Qed.

Lemma write_manifest dir items st :
  write_text dir (u "generated.json") (manifest_text items) st
  = (with_file dir (u "generated.json") (Text (manifest_text items)) st, Returns tt).
Proof.
  unfold write_text. pose proof (manifest_encodable items) as H.
  unfold encodable in H. apply negb_true_iff in H. by rewrite H.
Qed.

Lemma write_page dir name text st :
  write_text dir name text st
  = if encodable text then (with_file dir name (Text text) st, Returns tt)
    else (with_file dir name (Text []) st, Raises UnicodeEncodeError).
Proof. unfold write_text, encodable. by destruct (existsb is_surrogate text). Qed.

(** [main] past the credential check: read the prompts, make the directory,
    run the loop, write the manifest and the gallery, return 0. *)
Lemma main1_unfold w st :
  credential w <> [] ->
  Gen1.main w st
  = match read_prompts w (u "prompts.json") with
    | Raises e => (st, Raises e)
    | Returns prompts =>
        if creatable st (u "out/" ++ now w) then
          match Gen1.main_loop w (u "out/" ++ now w) (credential w) prompts [] st with
          | (st1, Raises e) => (st1, Raises e)
          | (st1, Returns items) =>
              if encodable (Gen1.gallery_html (u "out/" ++ now w) items)
              then (finish1 (u "out/" ++ now w) items st1, Returns 0%Z)
              else (spoilt (u "out/" ++ now w) items st1, Raises UnicodeEncodeError)
          end
        else (st, Raises (mkdir_error st (u "out/" ++ now w)))
    end.
Proof.
  unfold credential. intros Hk.
  unfold Gen1.main, Gen1.write_gallery, print_err, lift, mbind, M_bind, mret, M_ret.
  destruct (Str.strip _) as [|c key] eqn:Ek; [done|].
  destruct (read_prompts w _) as [prompts|e]; [|done].
  rewrite mkdir_unfold. destruct (creatable st _); [|done].
  destruct (Gen1.main_loop _ _ _ _ _ _) as [st1 [items|e]]; [|done].
  rewrite write_manifest, write_page. by destruct (encodable _).
Qed.

Lemma main2_unfold w st :
  credential w <> [] ->
  Gen2.main w st
  = match read_prompts w (u "prompts2-lockup.json") with
    | Raises e => (st, Raises e)
    | Returns prompts =>
        if creatable st (Gen2.out_dir_of w) then
          match Gen2.main_loop w (Gen2.out_dir_of w) (credential w) prompts [] st with
          | (st1, Raises e) => (st1, Raises e)
          | (st1, Returns items) =>
              if encodable (Gen2.gallery_html items)
              then (finish2 (Gen2.out_dir_of w) items st1, Returns 0%Z)
              else (spoilt (Gen2.out_dir_of w) items st1, Raises UnicodeEncodeError)
          end
        else (st, Raises (mkdir_error st (Gen2.out_dir_of w)))
    end.
Proof.
  unfold credential. intros Hk.
  unfold Gen2.main, Gen2.write_gallery, print_err, lift, mbind, M_bind, mret, M_ret.
  destruct (Str.strip _) as [|c key] eqn:Ek; [done|].
  destruct (read_prompts w _) as [prompts|e]; [|done].
  rewrite mkdir_unfold. destruct (creatable st _); [|done].
  destruct (Gen2.main_loop _ _ _ _ _ _) as [st1 [items|e]]; [|done].
  rewrite write_manifest, write_page. by destruct (encodable _).
Qed.

(** A run that returns 0: the prompts were read, the directory made, the
    loop came to its end over all records and the page was written. *)
Lemma main1_zero w st st' :
  Gen1.main w st = (st', Returns 0%Z) ->
  credential w <> []
  /\ exists prompts st1,
       read_prompts w (u "prompts.json") = Returns prompts
       /\ creatable st (u "out/" ++ now w) = true
       /\ Gen1.main_loop w (u "out/" ++ now w) (credential w) prompts [] st
          = (st1, Returns (map (item_of fname1) prompts))
       /\ encodable (Gen1.gallery_html (u "out/" ++ now w) (map (item_of fname1) prompts))
          = true
       /\ st' = finish1 (u "out/" ++ now w) (map (item_of fname1) prompts) st1.
Proof.
  intros H.
  assert (credential w <> []) as Hk.
  { intros Hk. destruct (main_blank w st Hk) as [H1 _]. by rewrite H1 in H. }
  split; [done|]. rewrite (main1_unfold w st Hk) in H.
  destruct (read_prompts w _) as [prompts|e]; [|done].
  destruct (creatable st _); [|done].
  destruct (Gen1.main_loop _ _ _ _ _ _) as [st1 [items|e]] eqn:L; [|done].
  pose proof (loop1_returns _ _ _ _ _ _ _ _ L) as Hi. simpl in Hi. subst items.
  destruct (encodable _) eqn:En; [|done].
  injection H as <-. by exists prompts, st1.
Qed.

Lemma main2_zero w st st' :
  Gen2.main w st = (st', Returns 0%Z) ->
  credential w <> []
  /\ exists prompts st1,
       read_prompts w (u "prompts2-lockup.json") = Returns prompts
       /\ creatable st (Gen2.out_dir_of w) = true
       /\ Gen2.main_loop w (Gen2.out_dir_of w) (credential w) prompts [] st
          = (st1, Returns (map (item_of fname2) prompts))
       /\ encodable (Gen2.gallery_html (map (item_of fname2) prompts)) = true
       /\ st' = finish2 (Gen2.out_dir_of w) (map (item_of fname2) prompts) st1.
Proof.
  intros H.
  assert (credential w <> []) as Hk.
  { intros Hk. destruct (main_blank w st Hk) as [_ H2]. by rewrite H2 in H. }
  split; [done|]. rewrite (main2_unfold w st Hk) in H.
  destruct (read_prompts w _) as [prompts|e]; [|done].
  destruct (creatable st _); [|done].
  destruct (Gen2.main_loop _ _ _ _ _ _) as [st1 [items|e]] eqn:L; [|done].
  pose proof (loop2_returns _ _ _ _ _ _ _ _ L) as Hi. simpl in Hi. subst items.
  destruct (encodable _) eqn:En; [|done].
  injection H as <-. by exists prompts, st1.
Qed.



(** A run that returns: with the credential present it returns 0 and has
    written the manifest of all records. *)
Lemma main1_returns w st st' code :
  credential w <> [] ->
  Gen1.main w st = (st', Returns code) ->
  code = 0%Z
  /\ exists prompts,
       read_prompts w (u "prompts.json") = Returns prompts
       /\ manifest_at st' (u "out/" ++ now w)
          = Some (Text (manifest_text (map (item_of fname1) prompts))).
Proof.
  intros Hk H.
  assert (code = 0%Z) as ->.
  { rewrite (main1_unfold w st Hk) in H.
    destruct (read_prompts w _) as [prompts|e]; [|done].
    destruct (creatable st _); [|done].
    destruct (Gen1.main_loop _ _ _ _ _ _) as [st1 [items|e]]; [|done].
    destruct (encodable _); [|done]. by injection H as _ <-. }
  split; [done|].
  destruct (main1_zero w st st' H) as (_ & prompts & st1 & Hr & _ & _ & _ & ->).
  exists prompts. split; [done|]. apply manifest_kept.
Qed.

Lemma main2_returns w st st' code :
  credential w <> [] ->
  Gen2.main w st = (st', Returns code) ->
  code = 0%Z
  /\ exists prompts,
       read_prompts w (u "prompts2-lockup.json") = Returns prompts
       /\ manifest_at st' (Gen2.out_dir_of w)
          = Some (Text (manifest_text (map (item_of fname2) prompts))).
Proof.
  intros Hk H.
  assert (code = 0%Z) as ->.
  { rewrite (main2_unfold w st Hk) in H.
    destruct (read_prompts w _) as [prompts|e]; [|done].
    destruct (creatable st _); [|done].
    destruct (Gen2.main_loop _ _ _ _ _ _) as [st1 [items|e]]; [|done].
    destruct (encodable _); [|done]. by injection H as _ <-. }
  split; [done|].
  destruct (main2_zero w st st' H) as (_ & prompts & st1 & Hr & _ & _ & _ & ->).
  exists prompts. split; [done|]. apply manifest_kept.
Qed.

Lemma main_zero_credential w st st' :
  Gen1.main w st = (st', Returns 0%Z) \/ Gen2.main w st = (st', Returns 0%Z) ->
  credential w <> [].
Proof.
  intros H Hk. destruct (main_blank w st Hk) as [H1 H2].
  rewrite H1, H2 in H. by destruct H.
Qed.

(** ** Properties of the batch run *)

Lemma demo_always_image env prompts :
  always_image (demo_world env prompts inline_reply (Returns png))
    (credential (demo_world env prompts inline_reply (Returns png))).
Proof. intros prompt st. by exists png. Qed.

Lemma expected_name_id_title cut ps1 ps2 :
  map id_title ps1 = map id_title ps2 ->
  map (expected_name cut) ps1 = map (expected_name cut) ps2.
Proof.
  revert ps2. induction ps1 as [|p ps1 IH]; intros [|q ps2] H; try done.
  simpl in H. injection H as Hi Ht Hrest. simpl.
  rewrite (IH ps2 Hrest). unfold expected_name. by rewrite Hi, Ht.
Qed.

Lemma item_files cut ps :
  map it_file (map (item_of (fname_cut cut)) ps) = map (expected_name cut) ps.
Proof. induction ps as [|p ps IH]; simpl; [done|]. by rewrite IH. Qed.

(** C4. File names are deterministic: in both scripts, completed runs over
    records with identical id and title values write the same [file]
    fields, each being the zero-padded id, ['-'], the truncated slug of the
    title and [".png"] (60 characters of slug in [generate.py], 70 in
    [generate2.py]). *)
Theorem filename_determinism :
  names_deterministic Gen1.main (u "prompts.json") (fun w => u "out/" ++ now w) 60
  /\ names_deterministic Gen2.main (u "prompts2-lockup.json") Gen2.out_dir_of 70.
Proof.
  split; intros w1 w2 st1 st2 st1' st2' ps1 ps2 R1 R2 Hsame E1 E2.
  - pose proof (main_zero_credential w1 st1 st1' (or_introl E1)) as K1.
    pose proof (main_zero_credential w2 st2 st2' (or_introl E2)) as K2.
    destruct (main1_returns _ _ _ _ K1 E1) as (_ & qs1 & R1' & M1).
    destruct (main1_returns _ _ _ _ K2 E2) as (_ & qs2 & R2' & M2).
    rewrite R1 in R1'. rewrite R2 in R2'. simplify_eq.
    eexists _, _. split; [exact M1|]. split; [exact M2|].
    unfold fname1. rewrite !item_files.
    split; [by apply expected_name_id_title | done].
  - pose proof (main_zero_credential w1 st1 st1' (or_intror E1)) as K1.
    pose proof (main_zero_credential w2 st2 st2' (or_intror E2)) as K2.
    destruct (main2_returns _ _ _ _ K1 E1) as (_ & qs1 & R1' & M1).
    destruct (main2_returns _ _ _ _ K2 E2) as (_ & qs2 & R2' & M2).
    rewrite R1 in R1'. rewrite R2 in R2'. simplify_eq.
    eexists _, _. split; [exact M1|]. split; [exact M2|].
    unfold fname2. rewrite !item_files.
    split; [by apply expected_name_id_title | done].
Qed.

Lemma filename_determinism_witness :
  exists items1 items2,
    manifest_at first_run.1 (u "out/2025-01-02-03-04-05")
      = Some (Text (manifest_text items1))
    /\ manifest_at second_run.1 (u "out/2025-01-02-03-04-05")
      = Some (Text (manifest_text items2))
    /\ map it_file items1 = map it_file items2
    /\ map it_file items1 = [u "01-bold-t-mark.png"].
Proof.
  apply (proj1 filename_determinism
           (demo_world with_key [bold] url_reply (Returns png))
           (demo_world resuming [bold_reworded] inline_reply (Returns []))
           fresh earlier_run first_run.1 second_run.1 [bold] [bold_reworded]);
    vm_refl.
Defined.

(** C8. Without the credential (absent, or blank once stripped) both
    scripts print the diagnostic on the error stream and exit with status
    2, having posted nothing, fetched nothing and written nothing; with the
    credential, a run that ends without an exception exits with status 0. *)
Theorem missing_credential_exit (w : world) (st : state) :
  (credential w = [] ->
     exit_status (Gen1.main w) st = (with_err missing_key_line st, 2%Z)
     /\ exit_status (Gen2.main w) st = (with_err missing_key_line st, 2%Z)
     /\ files (with_err missing_key_line st) = files st
     /\ posts (with_err missing_key_line st) = posts st
     /\ fetched (with_err missing_key_line st) = fetched st
     /\ stderr (with_err missing_key_line st) = stderr st ++ [missing_key_line])
  /\ (credential w <> [] ->
      forall st' code,
        Gen1.main w st = (st', Returns code) \/ Gen2.main w st = (st', Returns code) ->
        code = 0%Z
        /\ (Gen1.main w st = (st', Returns code) -> exit_status (Gen1.main w) st = (st', 0%Z))
        /\ (Gen2.main w st = (st', Returns code) -> exit_status (Gen2.main w) st = (st', 0%Z))).
Proof.
  split.
  - intros Hk. destruct (main_blank w st Hk) as [H1 H2].
    unfold exit_status. by rewrite H1, H2.
  - intros Hk st' code H.
    assert (code = 0%Z) as ->.
    { destruct H as [H|H].
      - by destruct (main1_returns _ _ _ _ Hk H).
      - by destruct (main2_returns _ _ _ _ Hk H). }
    split; [done|]. unfold exit_status. split; by intros ->.
Qed.

Lemma missing_credential_exit_witness :
  (exit_status (Gen1.main (demo_world no_key [bold] inline_reply (Returns png))) fresh
   = (with_err missing_key_line fresh, 2%Z)
   /\ exit_status (Gen2.main (demo_world ∅ [bold] inline_reply (Returns png))) fresh
   = (with_err missing_key_line fresh, 2%Z))
  /\ exit_status (Gen2.main (demo_world with_key [bold] inline_reply (Returns png))) fresh
     = ((Gen2.main (demo_world with_key [bold] inline_reply (Returns png)) fresh).1, 0%Z).
Proof.
  destruct (missing_credential_exit
              (demo_world no_key [bold] inline_reply (Returns png)) fresh) as [B1 _].
  destruct (missing_credential_exit
              (demo_world ∅ [bold] inline_reply (Returns png)) fresh) as [B2 _].
  destruct (missing_credential_exit
              (demo_world with_key [bold] inline_reply (Returns png)) fresh) as [_ K].
  split; [split|].
  - refine (proj1 (B1 _)). vm_refl.
  - refine (proj1 (proj2 (B2 _))). vm_refl.
  - refine (proj2 (proj2 (K _ _ 0%Z _)) _).
    + vm_compute. discriminate.
    + right. vm_refl.
    + vm_refl.
Defined.

(** ** Properties of the image request *)

(** C6. When the vendor answers with the empty object, the image request of
    both scripts raises the protocol failure, whose message is a preview of
    the payload cut to 500 characters; the loop stops at that record and
    no file is written. *)
Theorem empty_object_protocol_error (w : world) (api_key dir : str)
    (p : PromptRecord) (rest : list PromptRecord)
    (items : list GeneratedItem) (st : state) :
  answer w api_key (p_prompt p) st = Returns (JDict []) ->
  let failure := unexpected_response (JDict []) in
  let st' := posted api_key (p_prompt p) st in
  failure = RuntimeError (u "Unexpected response: {}") None
  /\ Gen1.request_image w api_key (p_prompt p) st = (st', Raises failure)
  /\ Gen2.request_image w api_key (p_prompt p) st = (st', Raises failure)
  /\ Gen1.main_loop w dir api_key (p :: rest) items st = (st', Raises failure)
  /\ (present st dir (fname2 p) = false ->
      Gen2.main_loop w dir api_key (p :: rest) items st = (st', Raises failure))
  /\ files st' = files st.
Proof.
  intros Ha failure st'.
  destruct (request_image_unexpected w api_key (p_prompt p) st (JDict []) JNull JNull)
    as [H1 H2]; try done.
  split; [done|]. split; [exact H1|]. split; [exact H2|].
  split; [by apply loop1_abort|]. split; [|done].
  intros Hp. by apply loop2_abort.
Qed.

Lemma empty_object_protocol_error_witness :
  Gen1.main_loop (demo_world with_key [bold] (Returns (JDict [])) (Returns png))
    (u "out/x") (u "sk-test") [bold; serif] [] fresh
  = (posted (u "sk-test") (p_prompt bold) fresh,
     Raises (RuntimeError (u "Unexpected response: {}") None)).
Proof.
  destruct (empty_object_protocol_error
              (demo_world with_key [bold] (Returns (JDict [])) (Returns png))
              (u "sk-test") (u "out/x") bold [serif] [] fresh)
    as (Hmsg & _ & _ & Hloop & _); [reflexivity|].
  rewrite Hloop. by rewrite Hmsg.
Defined.

(** C9. A payload whose ["data"] is the empty list makes the image request
    of both scripts fail with the index error of [[0]], not with the
    protocol failure.  The last line of [request_image], which raises the
    protocol failure, is the one reached when the three lines before it
    yield two false values; they do so only for a payload object whose
    ["data"] is absent or is a list starting with an object, and in which
    both ["b64_json"] and ["url"] are absent or hold a false value. *)
Theorem empty_data_list_index_error (w : world) (api_key prompt : str)
    (st : state) (fields : list (str * json)) :
  answer w api_key prompt st = Returns (JDict fields) ->
  Json.lookup_key (u "data") fields = Some (JList []) ->
  (Gen1.request_image w api_key prompt st = (posted api_key prompt st, Raises IndexError)
   /\ Gen2.request_image w api_key prompt st = (posted api_key prompt st, Raises IndexError))
  /\ (forall payload b64 url,
        payload_fields payload = Returns (b64, url) ->
        Json.truthy b64 = false -> Json.truthy url = false ->
        exists fields' first,
          payload = JDict fields'
          /\ (Json.lookup_key (u "data") fields' = None /\ first = []
              \/ exists others,
                   Json.lookup_key (u "data") fields'
                   = Some (JList (JDict first :: others)))
          /\ Json.truthy (default JNull (Json.lookup_key (u "b64_json") first)) = false
          /\ Json.truthy (default JNull (Json.lookup_key (u "url") first)) = false)
  /\ (forall w' st' payload b64 url,
        answer w' api_key prompt st' = Returns payload ->
        payload_fields payload = Returns (b64, url) ->
        Json.truthy b64 = false -> Json.truthy url = false ->
        Gen1.request_image w' api_key prompt st'
          = (posted api_key prompt st', Raises (unexpected_response payload))
        /\ Gen2.request_image w' api_key prompt st'
          = (posted api_key prompt st', Raises (unexpected_response payload))).
Proof.
  intros Ha Hd. split; [|split].
  - apply (request_image_fields_raise w api_key prompt st (JDict fields)); [done|].
    unfold payload_fields. simpl. by rewrite Hd.
  - intros payload b64 url Hf Hb Hu.
    destruct (payload_fields_returns payload b64 url Hf)
      as (fields' & first & -> & Hshape & -> & ->).
    by exists fields', first.
  - intros w' st' payload b64 url. apply request_image_unexpected.
Qed.

Lemma empty_data_list_index_error_witness :
  Gen1.request_image (demo_world with_key [bold] empty_data_reply (Returns png))
    (u "sk-test") (u "a bold letter T") fresh
  = (posted (u "sk-test") (u "a bold letter T") fresh, Raises IndexError)
  /\ Gen2.request_image (demo_world with_key [bold] empty_data_reply (Returns png))
       (u "sk-test") (u "a bold letter T") fresh
     = (posted (u "sk-test") (u "a bold letter T") fresh, Raises IndexError).
Proof.
  refine (proj1 (empty_data_list_index_error
                   (demo_world with_key [bold] empty_data_reply (Returns png))
                   (u "sk-test") (u "a bold letter T") fresh
                   [(u "created", JInt 1700000000); (u "data", JList [])] _ _));
    reflexivity.
Defined.

(** C5, at the failing input.  The vendor returns a retrieval URL and the
    download raises [URLError]: [generate.py] raises the download failure
    chained to that error, while [generate2.py] lets the bare error out of
    [request_image]; either way the run stops with a traceback. *)
Theorem download_failure_gen2_unwrapped :
  let timed_out := URLError (u "timed out") in
  let w := demo_world with_key [bold] url_reply (Raises timed_out) in
  let st' := with_fetch (JStr (u "https://x/y.png")) (posted (u "sk-test") (u "a bold letter T") fresh) in
  Gen2.request_image w (u "sk-test") (u "a bold letter T") fresh = (st', Raises timed_out)
  /\ Gen1.request_image w (u "sk-test") (u "a bold letter T") fresh
     = (st', Raises (RuntimeError
                       (u "Failed to download image: <urlopen error timed out>")
                       (Some timed_out)))
  /\ exit_status (Gen2.main w) fresh = (with_err (Traceback timed_out) st', 1%Z)
  /\ exit_status (Gen1.main w) fresh
     = (with_err (Traceback (RuntimeError
                               (u "Failed to download image: <urlopen error timed out>")
                               (Some timed_out))) st', 1%Z).
Proof. cbv zeta. repeat split; vm_refl. Qed.

(** ** The gallery *)

Lemma infix_of_refl a : infix_of a a.
Proof. exists [], []. by rewrite app_nil_r. Qed.

Lemma infix_of_app_l a s t : infix_of a s -> infix_of a (s ++ t).
Proof. intros (pre & post & ->). exists pre, (post ++ t). by rewrite <- !app_assoc. Qed.

Lemma infix_of_app_r a s t : infix_of a t -> infix_of a (s ++ t).
Proof. intros (pre & post & ->). exists (s ++ pre), post. by rewrite <- !app_assoc. Qed.

Lemma infix_of_trans a b c : infix_of a b -> infix_of b c -> infix_of a c.
Proof.
  intros (p1 & q1 & ->) (p2 & q2 & ->).
  exists (p2 ++ p1), (q1 ++ q2). by rewrite <- !app_assoc.
Qed.

Lemma join_infix sep parts part :
  part ∈ parts -> infix_of part (Str.join sep parts).
Proof.
  induction parts as [|p ps IH]; intros Hin; [by apply elem_of_nil in Hin|].
  apply elem_of_cons in Hin as [-> | Hin].
  - destruct ps; [apply infix_of_refl|]. apply infix_of_app_l, infix_of_refl.
  - destruct ps as [|q qs]; [by apply elem_of_nil in Hin|].
    change (infix_of part (p ++ sep ++ Str.join sep (q :: qs))).
    by apply infix_of_app_r, infix_of_app_r, IH.
Qed.

(** A template that starts and ends with a newline, around a body that
    starts and ends with visible characters: [strip()] leaves the body. *)
Lemma strip_wrapped body a b :
  head body = Some a -> Str.is_space a = false ->
  last body = Some b -> Str.is_space b = false ->
  Str.strip (nl ++ body ++ nl) = body.
Proof.
  intros Ha Hsa Hb Hsb. unfold Str.strip, Str.strip_by.
  assert (Str.lstrip_by Str.is_space (nl ++ body ++ nl) = body ++ nl) as ->.
  { destruct body as [|x t]; [done|]. injection Ha as ->. simpl. by rewrite Hsa. }
  apply last_Some in Hb as [l ->].
  unfold Str.rstrip_by. rewrite !rev_app_distr. simpl. rewrite Hsb.
  change (b :: rev l) with ([b] ++ rev l).
  by rewrite rev_app_distr, rev_involutive.
Qed.

Lemma figure_block_stripped caption it :
  Str.strip (nl ++ figure_block caption it ++ nl) = figure_block caption it.
Proof.
  apply (strip_wrapped _ 60 62); try done.
  unfold figure_block. rewrite !app_assoc.
  change (u "</figure>") with (u "</figure" ++ [62]).
  rewrite app_assoc. apply last_snoc.
Qed.

Lemma figure1_block it : Gen1.figure it = figure_block caption1 it.
Proof.
  rewrite <- figure_block_stripped. unfold Gen1.figure, figure_block, caption1.
  by rewrite <- !app_assoc.
Qed.

Lemma figure2_block it : Gen2.figure it = figure_block caption2 it.
Proof.
  rewrite <- figure_block_stripped. unfold Gen2.figure, figure_block, caption2.
  by rewrite <- !app_assoc.
Qed.

Lemma gallery1_blocks out_dir items :
  Gen1.gallery_html out_dir items
  = Gen1.page_head out_dir ++ Str.join nl (map (figure_block caption1) items)
    ++ Gen1.page_tail.
Proof.
  unfold Gen1.gallery_html. do 3 f_equal.
  apply map_ext. intros it. apply figure1_block.
Qed.

Lemma gallery2_blocks items :
  Gen2.gallery_html items
  = Gen2.page_head ++ Str.join nl (map (figure_block caption2) items)
    ++ Gen2.page_tail.
Proof.
  unfold Gen2.gallery_html. do 3 f_equal.
  apply map_ext. intros it. apply figure2_block.
Qed.

(** C10. Titles reach the page unescaped: every entry's title (and, in
    [generate.py], its prompt) occurs in the page character for character,
    whatever characters it holds. *)
Theorem gallery_verbatim (items : list GeneratedItem) (it : GeneratedItem) :
  it ∈ items ->
  (forall out_dir,
     infix_of (it_title it) (Gen1.gallery_html out_dir items)
     /\ infix_of (it_prompt it) (Gen1.gallery_html out_dir items))
  /\ infix_of (it_title it) (Gen2.gallery_html items).
Proof.
  intros Hin.
  assert (forall caption, infix_of (caption it)
            (Str.join nl (map (figure_block caption) items))) as Hcap.
  { intros caption. apply (infix_of_trans _ (figure_block caption it)).
    - unfold figure_block. apply infix_of_app_r, infix_of_app_l, infix_of_refl.
    - apply join_infix. apply list_elem_of_In, List.in_map.
      by apply list_elem_of_In. }
  split; [intros out_dir; rewrite gallery1_blocks; split | rewrite gallery2_blocks].
  - apply infix_of_app_r, infix_of_app_l.
    refine (infix_of_trans _ _ _ _ (Hcap caption1)).
    do 3 apply infix_of_app_r. apply infix_of_app_l, infix_of_refl.
  - apply infix_of_app_r, infix_of_app_l.
    refine (infix_of_trans _ _ _ _ (Hcap caption1)).
    do 5 apply infix_of_app_r. apply infix_of_app_l, infix_of_refl.
  - apply infix_of_app_r, infix_of_app_l.
    refine (infix_of_trans _ _ _ _ (Hcap caption2)).
    do 3 apply infix_of_app_r. apply infix_of_app_l, infix_of_refl.
Qed.

Lemma gallery_verbatim_witness :
  infix_of (u "<b>Salt & Pepper</b>") (Gen2.gallery_html [item_of fname2 bold; markup])
  /\ infix_of (u "<script>alert(1)</script>")
       (Gen1.gallery_html (u "out/x") [item_of fname2 bold; markup]).
Proof.
  destruct (gallery_verbatim [item_of fname2 bold; markup] markup) as [H1 H2].
  - apply elem_of_cons. right. apply elem_of_cons. by left.
  - split; [exact H2 | exact (proj2 (H1 (u "out/x")))].
Defined.

(** ** Counting figure blocks *)

Lemma starts_with_app_whole pat : forall s rest,
  proper_prefix s pat = false ->
  starts_with pat (s ++ rest) = starts_with pat s.
Proof.
  unfold proper_prefix.
  induction pat as [|a p IH]; intros s rest H; [by destruct s|].
  destruct s as [|b s]; [done|]. simpl in *.
  destruct (N.eqb_spec a b) as [->|Hne]; [|done]. simpl.
  apply IH. by rewrite N.eqb_refl in H.
Qed.

Lemma occurrences_app_lit pat l rest :
  no_partial pat l = true ->
  occurrences pat (l ++ rest) = (occurrences pat l + occurrences pat rest)%nat.
Proof.
  induction l as [|c l IH]; [done|].
  intros [Hc Hl]%andb_true_iff. apply negb_true_iff in Hc.
  change ((c :: l) ++ rest) with (c :: (l ++ rest)).
  cbn [occurrences]. rewrite (IH Hl).
  change (c :: (l ++ rest)) with ((c :: l) ++ rest).
  rewrite (starts_with_app_whole pat (c :: l) rest Hc). lia.
Qed.

Lemma starts_with_break p : forall s r rest,
  r ∉ p -> starts_with p (s ++ r :: rest) = starts_with p s.
Proof.
  induction p as [|b p IH]; intros s r rest Hr; [by destruct s|].
  apply not_elem_of_cons in Hr as [Hrb Hr].
  destruct s as [|d s]; simpl.
  - destruct (N.eqb_spec b r) as [->|_]; done.
  - by rewrite IH.
Qed.

Lemma occurrences_app_break pat f g :
  breaks pat g = true ->
  occurrences pat (f ++ g) = (occurrences pat f + occurrences pat g)%nat.
Proof.
  destruct g as [|r rest]; [intros _; rewrite app_nil_r; simpl; lia|].
  unfold breaks. intros Hr%negb_true_iff%bool_decide_eq_false.
  set (k := occurrences pat (r :: rest)).
  induction f as [|c f IH]; [done|].
  change ((c :: f) ++ r :: rest) with (c :: (f ++ r :: rest)).
  cbn [occurrences]. rewrite IH.
  destruct pat as [|a p]; [simpl; lia|].
  cbn [starts_with]. simpl in Hr. rewrite (starts_with_break p f r rest Hr). lia.
Qed.

Lemma occurrences_free a p f : a ∉ f -> occurrences (a :: p) f = 0%nat.
Proof.
  induction f as [|c f IH]; [done|].
  intros [Hc Hf]%not_elem_of_cons. cbn [occurrences starts_with].
  rewrite (IH Hf). by destruct (N.eqb_spec a c).
Qed.

Lemma format_0d_no_figure width z : figure_count (Str.format_0d width z) = 0%nat.
Proof.
  change (u "<figure>") with (60 :: u "figure>").
  apply occurrences_free.
  assert (60 ∉ Str.decimal (Z.abs_N z)) as Hd.
  { intros H. pose proof (uint_digits_range (N.to_uint (Z.abs_N z))) as Hr.
    rewrite Forall_forall in Hr. apply Hr in H. lia. }
  assert (forall n, 60 ∉ replicate n 48) as Hz.
  { intros n [H _]%elem_of_replicate. discriminate H. }
  unfold Str.format_0d. destruct (z <? 0)%Z.
  - rewrite not_elem_of_cons, not_elem_of_app. by repeat split.
  - rewrite not_elem_of_app. by split.
Qed.

Lemma count_lit0 pat l rest :
  no_partial pat l && (occurrences pat l =? 0)%nat = true ->
  occurrences pat (l ++ rest) = occurrences pat rest.
Proof.
  intros [H1 H2%Nat.eqb_eq]%andb_true_iff.
  by rewrite occurrences_app_lit, H2.
Qed.

Lemma count_lit1 pat l rest :
  no_partial pat l && (occurrences pat l =? 1)%nat = true ->
  occurrences pat (l ++ rest) = S (occurrences pat rest).
Proof.
  intros [H1 H2%Nat.eqb_eq]%andb_true_iff.
  by rewrite occurrences_app_lit, H2.
Qed.

Lemma count_field pat f g :
  occurrences pat f = 0%nat -> breaks pat g = true ->
  occurrences pat (f ++ g) = occurrences pat g.
Proof. intros Hf Hg. by rewrite occurrences_app_break, Hf. Qed.

(** Walk through a text made of literal pieces and of fields without an
    occurrence. *)
Ltac count_pieces :=
  repeat first
    [ rewrite count_lit0 by reflexivity
    | rewrite count_lit1 by reflexivity
    | rewrite count_field
        by first [eassumption | apply format_0d_no_figure | reflexivity] ].

Lemma count_block1 it rest :
  figure_count (it_file it) = 0%nat ->
  figure_count (it_title it) = 0%nat ->
  figure_count (it_prompt it) = 0%nat ->
  figure_count (figure_block caption1 it ++ rest) = S (figure_count rest).
Proof.
  unfold figure_block, figure_open, caption1. intros Hf Ht Hp.
  rewrite <- !app_assoc. count_pieces. reflexivity.
Qed.

Lemma count_block2 it rest :
  figure_count (it_file it) = 0%nat ->
  figure_count (it_title it) = 0%nat ->
  figure_count (figure_block caption2 it ++ rest) = S (figure_count rest).
Proof.
  unfold figure_block, figure_open, caption2. intros Hf Ht.
  rewrite <- !app_assoc. count_pieces. reflexivity.
Qed.

Lemma count_join caption (P : GeneratedItem -> Prop) items rest :
  (forall it rest', P it ->
     figure_count (figure_block caption it ++ rest') = S (figure_count rest')) ->
  Forall P items ->
  figure_count (Str.join nl (map (figure_block caption) items) ++ rest)
  = (length items + figure_count rest)%nat.
Proof.
  intros Hblock. induction 1 as [|it its Hit Hits IH]; [done|].
  destruct its as [|it2 its].
  - change (Str.join nl (map (figure_block caption) [it]))
      with (figure_block caption it).
    by rewrite Hblock.
  - change (Str.join nl (map (figure_block caption) (it :: it2 :: its)))
      with (figure_block caption it ++ nl
            ++ Str.join nl (map (figure_block caption) (it2 :: its))).
    rewrite <- !app_assoc, Hblock by done.
    rewrite count_lit0 by reflexivity.
    rewrite IH. reflexivity.
Qed.

Lemma count_page1 out_dir items :
  figure_count out_dir = 0%nat -> Forall plain1 items ->
  figure_count (Gen1.gallery_html out_dir items) = length items.
Proof.
  intros Hd Hitems. rewrite gallery1_blocks.
  unfold Gen1.page_head, Gen1.page_tail, lines, style_rules.
  cbn [flat_map app]. rewrite <- !app_assoc. count_pieces.
  rewrite (count_join caption1 plain1 items _
             (fun it rest' '(conj Hf (conj Ht Hp)) => count_block1 it rest' Hf Ht Hp)
             Hitems).
  count_pieces. simpl. lia.
Qed.

Lemma count_page2 items :
  Forall plain2 items ->
  figure_count (Gen2.gallery_html items) = length items.
Proof.
  intros Hitems. rewrite gallery2_blocks.
  unfold Gen2.page_head, Gen2.page_tail, lines, style_rules.
  cbn [flat_map app]. rewrite <- !app_assoc. count_pieces.
  rewrite (count_join caption2 plain2 items _
             (fun it rest' '(conj Hf Ht) => count_block2 it rest' Hf Ht)
             Hitems).
  count_pieces. simpl. lia.
Qed.




(** * Further properties *)

(** ** The slug as a join of words *)

Lemma starts_word_words t : starts_word t = true -> words t <> [].
Proof.
  destruct t as [|c t]; [done|]. simpl. intros ->.
  unfold push_char. destruct (starts_word t); [by destruct (words t) | done].
Qed.

Lemma words_pad_l a s :
  Forall (fun c => Str.is_lower_or_digit c = false) a -> words (a ++ s) = words s.
Proof. induction 1 as [|c a Hc _ IH]; simpl; [done|]. by rewrite Hc. Qed.

Lemma starts_word_pad_r s b :
  Forall (fun c => Str.is_lower_or_digit c = false) b ->
  starts_word (s ++ b) = starts_word s.
Proof. destruct s; [|done]. by destruct 1. Qed.

Lemma words_pad_r s b :
  Forall (fun c => Str.is_lower_or_digit c = false) b -> words (s ++ b) = words s.
Proof.
  intros Hb. induction s as [|c s IH]; simpl.
  - by apply (words_pad_l b []) in Hb as Hw; rewrite app_nil_r in Hw.
  - by rewrite IH, starts_word_pad_r.
Qed.

Lemma sub1_from_dash t : forall run,
  run <> [] -> exists rest, sub1_from run t = 45 :: rest.
Proof.
  induction t as [|c t IH]; intros run Hrun; simpl.
  - destruct run; [done|]. by eexists.
  - destruct (not_slug_alnum c); [by apply IH|].
    destruct run; [done|]. by eexists.
Qed.

Lemma starts_word_sub1 t : starts_word (sub1_from [] t) = starts_word t.
Proof.
  destruct t as [|c t]; [done|]. simpl.
  destruct (not_slug_alnum c) eqn:E.
  - destruct (sub1_from_dash t [c]) as [rest ->]; [done|].
    apply negb_true_iff in E. by rewrite E.
  - apply negb_false_iff in E. by rewrite E.
Qed.

(** Replacing the runs of other characters keeps the words. *)
Lemma words_sub1 t : forall run, words (sub1_from run t) = words t.
Proof.
  induction t as [|c t IH]; intros run; simpl.
  - by destruct (flush1_cases run) as [-> | ->].
  - destruct (not_slug_alnum c) eqn:E.
    + apply negb_true_iff in E. by rewrite E, IH.
    + apply negb_false_iff in E. rewrite E.
      rewrite words_pad_l by (by destruct (flush1_cases run) as [-> | ->]; repeat constructor).
      simpl. by rewrite E, IH, starts_word_sub1.
Qed.

Section StripSplit.
Variable p : N -> bool.

Lemma lstrip_by_split s :
  exists a, s = a ++ Str.lstrip_by p s /\ Forall (fun c => p c = true) a.
Proof.
  induction s as [|c t (a & Ha & Fa)]; simpl; [by exists []|].
  destruct (p c) eqn:E; [|by exists []].
  exists (c :: a). split; [by rewrite Ha at 1 | by constructor].
Qed.

Lemma rstrip_by_split s :
  exists b, s = Str.rstrip_by p s ++ b /\ Forall (fun c => p c = true) b.
Proof.
  unfold Str.rstrip_by. destruct (lstrip_by_split (rev s)) as (a & Ha & Fa).
  exists (rev a). split.
  - apply (f_equal (@rev N)) in Ha.
    by rewrite rev_app_distr, rev_involutive in Ha.
  - rewrite Forall_forall in *. intros c Hc. apply Fa.
    by apply list_elem_of_In, in_rev, list_elem_of_In in Hc.
Qed.

(** What [strip] takes away are characters of the class, on both sides. *)
Lemma strip_by_split s :
  exists a b, s = a ++ Str.strip_by p s ++ b
    /\ Forall (fun c => p c = true) a /\ Forall (fun c => p c = true) b.
Proof.
  destruct (lstrip_by_split s) as (a & Ha & Fa).
  destruct (rstrip_by_split (Str.lstrip_by p s)) as (b & Hb & Fb).
  exists a, b. unfold Str.strip_by. by rewrite <- Hb.
Qed.

Lemma words_strip_by s :
  (forall c, p c = true -> Str.is_lower_or_digit c = false) ->
  words (Str.strip_by p s) = words s.
Proof.
  intros Hp. destruct (strip_by_split s) as (a & b & Hs & Fa & Fb).
  rewrite Hs at 2.
  rewrite words_pad_l, words_pad_r; [done| |]; eapply Forall_impl; eauto.
Qed.

End StripSplit.

Lemma join_push c w ws :
  Str.join (u "-") ((c :: w) :: ws) = c :: Str.join (u "-") (w :: ws).
Proof. by destruct ws. Qed.

(** A string of slug characters without doubled or trailing ['-'] is the
    join of its words, after a leading ['-'] if it has one. *)
Lemma slug_join_words s :
  Forall (fun c => slug_char c = true) s ->
  no_double_dash s = true ->
  last s <> Some 45 ->
  match s with
  | [] => True
  | c :: t =>
      if is_dash c then t = Str.join (u "-") (words s)
      else s = Str.join (u "-") (words s)
  end.
Proof.
  induction s as [|c t IH]; [done|].
  intros [Hc F]%Forall_cons D L.
  assert (t <> [] -> last t <> Some 45) as Lt.
  { intros Ht. destruct t; [done|]. exact L. }
  assert (no_double_dash t = true) as Dt.
  { change (c :: t) with ([c] ++ t) in D. by apply no_double_dash_app in D as [_ ?]. }
  destruct (slug_char_cases c Hc) as [E | ->].
  - rewrite (lower_or_digit_not_dash c E). simpl. rewrite E.
    destruct t as [|c' t']; [done|].
    specialize (IH F Dt (Lt ltac:(done))).
    destruct (is_dash c') eqn:E'.
    + apply is_dash_spec in E' as ->.
      change (starts_word (45 :: t')) with false. unfold push_char.
      assert (words (45 :: t') <> []) as Hw.
      { intros Hw. rewrite Hw in IH. simpl in IH. subst t'. by apply L. }
      destruct (words (45 :: t')) as [|w ws] eqn:Ew; [done|].
      change (Str.join (u "-") ([c] :: w :: ws))
        with (c :: 45 :: Str.join (u "-") (w :: ws)).
      by rewrite <- IH.
    + assert (Str.is_lower_or_digit c' = true) as Ea.
      { apply Forall_cons in F as [Hc' _].
        destruct (slug_char_cases c' Hc') as [?| ->]; done. }
      change (starts_word (c' :: t')) with (Str.is_lower_or_digit c'). rewrite Ea.
      unfold push_char.
      pose proof (starts_word_words (c' :: t') Ea) as Hw.
      destruct (words (c' :: t')) as [|w ws] eqn:Ew; [done|].
      rewrite join_push. by rewrite <- IH.
  - change (is_dash 45) with true. cbv iota.
    change (words (45 :: t)) with (words t).
    destruct t as [|c' t']; [by destruct L|].
    specialize (IH F Dt (Lt ltac:(done))).
    destruct (is_dash c') eqn:E'; [|done].
    apply is_dash_spec in E' as ->. simpl in D. discriminate.
Qed.

Lemma slug_ok_join_words s : slug_ok s -> s = Str.join (u "-") (words s).
Proof.
  intros (Hne & F & D & Hh & Hl).
  pose proof (slug_join_words s F D Hl) as H.
  destruct s as [|c t]; [done|].
  destruct (is_dash c) eqn:E; [|done].
  apply is_dash_spec in E as ->. by destruct Hh.
Qed.

Lemma dash_class_no_alnum c :
  bool_decide (c ∈ u "-") = true -> Str.is_lower_or_digit c = false.
Proof.
  change (u "-") with [45]. intros H%bool_decide_eq_true.
  by apply list_elem_of_singleton in H as ->.
Qed.

Lemma space_no_alnum c : Str.is_space c = true -> Str.is_lower_or_digit c = false.
Proof. unfold Str.is_space, Str.is_lower_or_digit. intros H. cp_lia. Qed.

(** The words of the text that [slugify] strips last are the words of the
    lowered title. *)
Lemma slugify_words_kept x :
  words (Str.strip_chars (u "-")
           (Str.re_sub_runs is_dash 2 (u "-")
              (Str.re_sub_runs not_slug_alnum 1 (u "-") (Str.strip (Str.lower x)))))
  = words (Str.lower x).
Proof.
  unfold Str.re_sub_runs, Str.strip_chars, Str.strip.
  destruct (sub1_from_shape (Str.strip_by Str.is_space (Str.lower x)) []) as [F D].
  rewrite (sub2_from_id _ []) by (by left || done). simpl app.
  rewrite words_strip_by by apply dash_class_no_alnum.
  rewrite words_sub1. apply words_strip_by, space_no_alnum.
Qed.

Lemma slugify_as_words x :
  slugify x
  = match words (Str.lower x) with
    | [] => u "logo"
    | ws => Str.join (u "-") ws
    end.
Proof.
  pose proof (slugify_slug_ok x) as Hok.
  pose proof (slugify_words_kept x) as Hw.
  unfold slugify in *.
  destruct (Str.strip_chars _ _) as [|c t] eqn:E.
  - simpl in Hw. by rewrite <- Hw.
  - rewrite <- Hw. pose proof (slug_ok_join_words _ Hok) as Hj.
    by destruct (words (c :: t)).
Qed.

(** X1. The slug of a title is made of the maximal runs of [[a-z0-9]] of
    the lowered title, in order and joined by ['-']; it is the default
    token when there is no such run. *)
Theorem slugify_joins_words (x : str) :
  slugify x
  = match words (Str.lower x) with
    | [] => u "logo"
    | ws => Str.join (u "-") ws
    end.
Proof. apply slugify_as_words. Qed.

Example words_example :
  words (u "--ab, c9  d!") = [u "ab"; u "c9"; u "d"].
Proof. vm_refl. Qed.

Lemma lower_app a b : Str.lower (a ++ b) = Str.lower a ++ Str.lower b.
Proof. unfold Str.lower. induction a as [|c a IH]; simpl; [done|]. by rewrite IH, app_assoc. Qed.

Lemma lower_nonempty s : s <> [] -> Str.lower s <> [].
Proof.
  destruct s as [|c s]; [done|]. intros _. unfold Str.lower. simpl.
  unfold Str.lower_cp. by repeat case_match.
Qed.

Lemma push_char_app c k ws ws' :
  (k = true -> ws <> []) ->
  push_char c k (ws ++ ws') = push_char c k ws ++ ws'.
Proof.
  unfold push_char. destruct k; [|done].
  intros H. destruct ws; [by destruct H|done].
Qed.

(** Words on both sides of a separator do not join. *)
Lemma words_sep a s b :
  s <> [] -> Forall (fun c => Str.is_lower_or_digit c = false) s ->
  words (a ++ s ++ b) = words a ++ words b.
Proof.
  intros Hs Fs. induction a as [|c a IH]; simpl.
  - by apply words_pad_l.
  - destruct (Str.is_lower_or_digit c); [|done].
    rewrite IH.
    assert (starts_word (a ++ s ++ b) = starts_word a) as ->.
    { destruct a; [|done]. destruct Fs as [|c' s' Hc' _]; [done|]. exact Hc'. }
    apply push_char_app, starts_word_words.
Qed.

(** X2. Characters around a title that are no letters or digits (spaces,
    punctuation, symbols) do not change its slug. *)
Theorem slugify_ignores_padding (pre x post : str) :
  Forall (fun c => slug_alnum c = false) pre ->
  Forall (fun c => slug_alnum c = false) post ->
  slugify (pre ++ x ++ post) = slugify x.
Proof.
  intros Hpre%lower_no_alnum Hpost%lower_no_alnum.
  rewrite !slugify_as_words, !lower_app.
  by rewrite words_pad_l, words_pad_r.
Qed.

Lemma slugify_ignores_padding_witness :
  slugify (u " [" ++ u "Bold T Mark" ++ u "]! ") = slugify (u "Bold T Mark").
Proof.
  apply slugify_ignores_padding; apply Forall_forall; intros c Hc;
    repeat (apply elem_of_cons in Hc as [-> | Hc]; [reflexivity|]);
    by apply elem_of_nil in Hc.
Defined.

(** X3. Which characters separate two parts of a title does not matter, as
    long as they are no letters or digits and there is at least one: the
    slug is the same. *)
Theorem slugify_any_separator (a s1 s2 b : str) :
  s1 <> [] -> s2 <> [] ->
  Forall (fun c => slug_alnum c = false) s1 ->
  Forall (fun c => slug_alnum c = false) s2 ->
  slugify (a ++ s1 ++ b) = slugify (a ++ s2 ++ b).
Proof.
  intros N1%lower_nonempty N2%lower_nonempty F1%lower_no_alnum F2%lower_no_alnum.
  rewrite !slugify_as_words, !lower_app.
  by rewrite !words_sep.
Qed.

Lemma slugify_any_separator_witness :
  slugify (u "Bold T" ++ u " " ++ u "Mark") = slugify (u "Bold T" ++ u " -- " ++ u "Mark").
Proof.
  apply slugify_any_separator; try discriminate;
    apply Forall_forall; intros c Hc;
    repeat (apply elem_of_cons in Hc as [-> | Hc]; [reflexivity|]);
    by apply elem_of_nil in Hc.
Defined.

(** ** File names *)

Lemma read_uint_digits d rest :
  read_uint (Str.uint_digits d ++ 45 :: rest) = d.
Proof. induction d; simpl; by rewrite ?IHd. Qed.

Lemma read_uint_padded k d rest :
  N.of_uint (read_uint (replicate k 48 ++ Str.uint_digits d ++ 45 :: rest))
  = N.of_uint d.
Proof.
  induction k as [|k IH]; simpl; [by rewrite read_uint_digits|].
  exact IH.
Qed.

Lemma decimal_head n : exists c t, Str.decimal n = c :: t /\ 48 <= c <= 57.
Proof.
  unfold Str.decimal. pose proof (uint_digits_range (N.to_uint n)) as Hr.
  destruct (Str.uint_digits (N.to_uint n)) as [|c t] eqn:E.
  - destruct n as [|q]; [done|]. simpl in E.
    pose proof (DecimalPos.Unsigned.to_uint_nonnil q) as Hq.
    by destruct (Pos.to_uint q).
  - apply Forall_cons in Hr as [Hc _]. by exists c, t.
Qed.

(** What [format_0d] prints reads back as the number. *)
Lemma name_id_format width z rest :
  name_id (Str.format_0d width z ++ 45 :: rest) = z.
Proof.
  unfold Str.format_0d, Str.decimal.
  destruct (z <? 0)%Z eqn:Ez.
  - simpl. rewrite <- app_assoc, read_uint_padded, DecimalN.Unsigned.of_to. lia.
  - destruct (decimal_head (Z.abs_N z)) as (c & t & Hd & Hc).
    assert (exists c' t', replicate (width - length (Str.decimal (Z.abs_N z))) 48
                          ++ Str.decimal (Z.abs_N z) ++ 45 :: rest = c' :: t'
                          /\ c' <> 45) as (c' & t' & E & Hc').
    { destruct (width - length (Str.decimal (Z.abs_N z)))%nat; simpl.
      - rewrite Hd. exists c, (t ++ 45 :: rest). split; [done|lia].
      - eexists _, _. split; [done|lia]. }
    unfold Str.decimal in E. rewrite <- app_assoc.
    unfold name_id. rewrite E.
    assert (Z.of_N (N.of_uint (read_uint (c' :: t'))) = z) as Hz.
    { rewrite <- E, read_uint_padded, DecimalN.Unsigned.of_to. lia. }
    destruct c' as [|q]; [done|].
    destruct (decide (N.pos q = 45)) as [Heq|Hne]; [done|].
    revert Hz. generalize (read_uint (N.pos q :: t')). intros d Hz.
    repeat (destruct q as [q|q|]; try done).
Qed.

Lemma name_id_fname n p : name_id (fname_cut n p) = p_id p.
Proof. unfold fname_cut. apply name_id_format. Qed.

(** X4. The id of a record can be read back from its file name, so records
    with different ids never get the same file name, and records with
    pairwise different ids get pairwise different file names. *)
Theorem fname_keeps_id (n m : nat) (p q : PromptRecord) (ps : list PromptRecord) :
  name_id (fname_cut n p) = p_id p
  /\ (fname_cut n p = fname_cut m q -> p_id p = p_id q)
  /\ (NoDup (map p_id ps) -> NoDup (map (fname_cut n) ps)).
Proof.
  split; [apply name_id_fname|]. split.
  - intros H. by rewrite <- (name_id_fname n p), H, name_id_fname.
  - intros Hnd. apply (NoDup_fmap_1 name_id).
    rewrite <- list_fmap_compose.
    erewrite list_fmap_ext; [exact Hnd|].
    intros ? x _. apply name_id_fname.
Qed.

Lemma fname_keeps_id_witness :
  name_id (u "01-bold-t-mark.png") = 1%Z
  /\ NoDup (map fname2 [bold; serif]).
Proof.
  destruct (fname_keeps_id 70 70 bold serif [bold; serif]) as (H1 & _ & H3).
  split; [exact H1|]. apply H3. apply (bool_decide_unpack _). by vm_compute.
Defined.

Lemma format_0d_chars width z :
  Forall (fun c => name_char c = true) (Str.format_0d width z).
Proof.
  assert (Forall (fun c => name_char c = true) (Str.decimal (Z.abs_N z))) as Hd.
  { eapply Forall_impl; [apply uint_digits_range|].
    intros c Hc. simpl in Hc. unfold name_char, Str.is_lower_or_digit. cp_lia. }
  assert (forall k, Forall (fun c => name_char c = true) (replicate k 48)) as Hz.
  { intros k. apply Forall_forall. by intros c [-> _]%elem_of_replicate. }
  unfold Str.format_0d. destruct (z <? 0)%Z.
  - constructor; [done|]. by apply Forall_app.
  - by apply Forall_app.
Qed.

Lemma fname_chars n p : Forall (fun c => name_char c = true) (fname_cut n p).
Proof.
  unfold fname_cut. rewrite !Forall_app. split; [apply format_0d_chars|].
  split; [by repeat constructor|]. split; [|by repeat constructor].
  apply Forall_take. destruct (slugify_slug_ok (p_title p)) as (_ & F & _).
  eapply Forall_impl; [exact F|]. intros c Hc. unfold name_char.
  unfold slug_char, is_dash in Hc. apply orb_true_iff in Hc as [-> | ->]; [done|].
  by rewrite orb_true_r.
Qed.

Lemma fname_last n p : last (fname_cut n p) = Some 103.
Proof.
  unfold fname_cut. rewrite !app_assoc.
  change (u ".png") with (u ".pn" ++ [103]). rewrite app_assoc. apply last_snoc.
Qed.

Lemma fname_not_reserved n p :
  fname_cut n p <> u "generated.json" /\ fname_cut n p <> u "index.html".
Proof.
  split; intros H; pose proof (fname_last n p) as Hl; rewrite H in Hl;
    vm_compute in Hl; discriminate Hl.
Qed.

(** X5. A file name holds only characters of [[a-z0-9.-]], so no path
    separator, and it is never the name of the manifest or of the gallery
    page: an image is written beside them, in the output directory. *)
Theorem fname_is_safe (n : nat) (p : PromptRecord) :
  Forall (fun c => Str.is_lower_or_digit c = true \/ c = 45 \/ c = 46) (fname_cut n p)
  /\ (47 ∉ fname_cut n p)
  /\ fname_cut n p <> u "generated.json"
  /\ fname_cut n p <> u "index.html".
Proof.
  pose proof (fname_chars n p) as F.
  split; [|split; [|apply fname_not_reserved]].
  - eapply Forall_impl; [exact F|]. intros c Hc. unfold name_char in Hc.
    apply orb_true_iff in Hc as [[Hc|Hc]%orb_true_iff|Hc]; [by left| |];
      apply N.eqb_eq in Hc; auto.
  - intros Hin. rewrite Forall_forall in F. by apply F in Hin.
Qed.

Lemma format_0d_two_digits z : (0 <= z <= 99)%Z -> length (Str.format_0d 2 z) = 2%nat.
Proof.
  intros Hz. assert (exists k : nat, (k < 100)%nat /\ z = Z.of_nat k) as (k & Hk & ->).
  { exists (Z.to_nat z). lia. }
  clear Hz. do 100 (destruct k as [|k]; [reflexivity|]). lia.
Qed.

(** X6. For the ids from 0 to 99 the file name has between 8 and [n + 7]
    characters when the slug is cut to [n] >= 1 characters: at most 67 in
    [generate.py] and 77 in [generate2.py]. *)
Theorem fname_length (n : nat) (p : PromptRecord) :
  (0 <= p_id p <= 99)%Z -> (1 <= n)%nat ->
  (8 <= length (fname_cut n p) <= n + 7)%nat.
Proof.
  intros Hid Hn. unfold fname_cut.
  rewrite !length_app, (format_0d_two_digits _ Hid), length_take.
  destruct (slugify_slug_ok (p_title p)) as (Hne & _).
  assert (1 <= length (slugify (p_title p)))%nat
    by (destruct (slugify (p_title p)); [done | simpl; lia]).
  change (length (u "-")) with 1%nat. change (length (u ".png")) with 4%nat. lia.
Qed.

Lemma fname_length_witness :
  (8 <= length (fname1 bold) <= 67)%nat /\ (8 <= length (fname2 bold) <= 77)%nat.
Proof.
  split; [apply (fname_length 60 bold) | apply (fname_length 70 bold)];
    (vm_compute; split; discriminate) || lia.
Defined.

(** ** More on the image request *)

(** X7. When the vendor rejects the request with an HTTP error, both
    scripts raise a failure that carries the status code and the body of
    the answer and is chained to the HTTP error; nothing is fetched or
    written, and the loop stops at that record. *)
Theorem vendor_error_wrapped (w : world) (api_key dir : str) (p : PromptRecord)
    (rest : list PromptRecord) (items : list GeneratedItem) (st : state)
    (code : Z) (reason body : str) :
  answer w api_key (p_prompt p) st = Raises (HTTPError code reason body) ->
  let failure :=
    RuntimeError (u "OpenAI Images API failed (" ++ Str.of_int code ++ u "): " ++ body)
      (Some (HTTPError code reason body)) in
  let st' := posted api_key (p_prompt p) st in
  Gen1.request_image w api_key (p_prompt p) st = (st', Raises failure)
  /\ Gen2.request_image w api_key (p_prompt p) st = (st', Raises failure)
  /\ Gen1.main_loop w dir api_key (p :: rest) items st = (st', Raises failure)
  /\ (present st dir (fname2 p) = false ->
      Gen2.main_loop w dir api_key (p :: rest) items st = (st', Raises failure))
  /\ files st' = files st /\ fetched st' = fetched st.
Proof.
  intros Ha failure st'.
  assert (Gen1.request_image w api_key (p_prompt p) st = (st', Raises failure)
          /\ Gen2.request_image w api_key (p_prompt p) st = (st', Raises failure))
    as [H1 H2].
  { unfold answer in Ha. unfold_request. by rewrite Ha. }
  split; [exact H1|]. split; [exact H2|]. split; [by apply loop1_abort|].
  split; [|done]. intros Hp. by apply loop2_abort.
Qed.

Lemma vendor_error_wrapped_witness :
  Gen2.main_loop (demo_world with_key [bold] (Raises rejected) (Returns png))
    (u "out/x") (u "sk-test") [bold; serif] [] fresh
  = (posted (u "sk-test") (p_prompt bold) fresh,
     Raises (RuntimeError
               (u "OpenAI Images API failed (400): {error: content_policy_violation}")
               (Some rejected))).
Proof.
  destruct (vendor_error_wrapped
              (demo_world with_key [bold] (Raises rejected) (Returns png))
              (u "sk-test") (u "out/x") bold [serif] [] fresh
              400 (u "Bad Request") (u "{error: content_policy_violation}"))
    as (_ & _ & _ & Hloop & _); [reflexivity|].
  apply Hloop. reflexivity.
Defined.

(** X8. Any other failure of the request itself (no connection, a timeout,
    an answer that is not JSON) leaves [request_image] as it was raised, in
    both scripts: only HTTP errors are wrapped. *)
Theorem post_failure_passes (w : world) (api_key prompt : str) (st : state) (e : exn) :
  answer w api_key prompt st = Raises e ->
  (forall code reason body, e <> HTTPError code reason body) ->
  Gen1.request_image w api_key prompt st = (posted api_key prompt st, Raises e)
  /\ Gen2.request_image w api_key prompt st = (posted api_key prompt st, Raises e).
Proof.
  intros Ha He. unfold answer in Ha. unfold_request. rewrite Ha.
  destruct e; try done. by destruct (He code reason body).
Qed.

Lemma post_failure_passes_witness :
  Gen1.request_image
    (demo_world with_key [bold] (Raises (URLError (u "Connection refused"))) (Returns png))
    (u "sk-test") (u "a bold letter T") fresh
  = (posted (u "sk-test") (u "a bold letter T") fresh,
     Raises (URLError (u "Connection refused"))).
Proof.
  refine (proj1 (post_failure_passes
                   (demo_world with_key [bold] (Raises (URLError (u "Connection refused")))
                      (Returns png))
                   (u "sk-test") (u "a bold letter T") fresh
                   (URLError (u "Connection refused")) _ _)); [reflexivity|done].
Defined.

(** X9. Inline image data wins over a retrieval URL: when the first entry
    of ["data"] has a true ["b64_json"], both scripts return what
    [base64.b64decode] makes of it and fetch nothing, whether or not there
    is a ["url"] as well. *)
Theorem inline_data_first (w : world) (api_key prompt : str) (st : state)
    (payload b64 url : json) :
  answer w api_key prompt st = Returns payload ->
  payload_fields payload = Returns (b64, url) ->
  Json.truthy b64 = true ->
  Gen1.request_image w api_key prompt st = (posted api_key prompt st, b64decode w b64)
  /\ Gen2.request_image w api_key prompt st = (posted api_key prompt st, b64decode w b64)
  /\ fetched (posted api_key prompt st) = fetched st.
Proof.
  intros Ha Hf Hb. unfold answer in Ha. unfold_request.
  by rewrite Ha, Hf, Hb.
Qed.

Lemma inline_data_first_witness :
  Gen2.request_image (demo_world with_key [bold] both_reply (Raises (URLError (u "down"))))
    (u "sk-test") (u "a bold letter T") fresh
  = (posted (u "sk-test") (u "a bold letter T") fresh, Returns png).
Proof.
  refine (proj1 (proj2 (inline_data_first
                   (demo_world with_key [bold] both_reply (Raises (URLError (u "down"))))
                   (u "sk-test") (u "a bold letter T") fresh _
                   (JStr (u "iVBORw==")) (JStr (u "https://x/y.png")) _ _ _)));
    reflexivity.
Defined.

(** X10. With a retrieval URL and no inline data both scripts fetch that
    URL exactly once, after the one request, and return the bytes of a
    successful download as they are. *)
Theorem url_fetched_once (w : world) (api_key prompt : str) (st : state)
    (payload b64 url : json) (img : bytes) :
  answer w api_key prompt st = Returns payload ->
  payload_fields payload = Returns (b64, url) ->
  Json.truthy b64 = false -> Json.truthy url = true ->
  fetch w (length (fetched st)) url = Returns img ->
  let st' := with_fetch url (posted api_key prompt st) in
  Gen1.request_image w api_key prompt st = (st', Returns img)
  /\ Gen2.request_image w api_key prompt st = (st', Returns img)
  /\ fetched st' = fetched st ++ [url]
  /\ posts st' = posts st ++ [(request_auth api_key, request_body prompt)]
  /\ files st' = files st.
Proof.
  intros Ha Hf Hb Hu Hfetch st'.
  destruct (request_image_fetches w api_key prompt st payload b64 url Ha Hf Hb Hu)
    as [H2 H1].
  rewrite Hfetch in H1, H2. by repeat split.
Qed.

Lemma url_fetched_once_witness :
  Gen1.request_image (demo_world with_key [bold] url_reply (Returns png))
    (u "sk-test") (u "a bold letter T") fresh
  = (with_fetch (JStr (u "https://x/y.png"))
       (posted (u "sk-test") (u "a bold letter T") fresh), Returns png).
Proof.
  refine (proj1 (url_fetched_once
                   (demo_world with_key [bold] url_reply (Returns png))
                   (u "sk-test") (u "a bold letter T") fresh _
                   JNull (JStr (u "https://x/y.png")) png _ _ _ _ _));
    reflexivity.
Defined.

(** X11. [generate.py] wraps a failed download only when the exception is a
    [URLError] (or its subclass [HTTPError]): the failure raised then has
    the message ["Failed to download image: "] followed by the text of the
    exception and is chained to it.  Every other exception of the download
    leaves [request_image] unchanged. *)
Theorem download_failure_gen1 (w : world) (api_key prompt : str) (st : state)
    (payload b64 url : json) (e : exn) :
  answer w api_key prompt st = Returns payload ->
  payload_fields payload = Returns (b64, url) ->
  Json.truthy b64 = false -> Json.truthy url = true ->
  fetch w (length (fetched st)) url = Raises e ->
  let st' := with_fetch url (posted api_key prompt st) in
  (forall reason, e = URLError reason ->
     Gen1.request_image w api_key prompt st
     = (st', Raises (RuntimeError
                       (u "Failed to download image: <urlopen error " ++ reason ++ u ">")
                       (Some e))))
  /\ (forall code reason body, e = HTTPError code reason body ->
        Gen1.request_image w api_key prompt st
        = (st', Raises (RuntimeError
                          (u "Failed to download image: HTTP Error " ++ Str.of_int code
                           ++ u ": " ++ reason)
                          (Some e))))
  /\ ((forall reason, e <> URLError reason) ->
      (forall code reason body, e <> HTTPError code reason body) ->
      Gen1.request_image w api_key prompt st = (st', Raises e)).
Proof.
  intros Ha Hf Hb Hu Hfetch st'.
  destruct (request_image_fetches w api_key prompt st payload b64 url Ha Hf Hb Hu)
    as [_ H1].
  rewrite Hfetch in H1. split; [|split].
  - intros reason ->. rewrite H1. reflexivity.
  - intros code reason body ->. rewrite H1. reflexivity.
  - intros H3 H4. rewrite H1. destruct e; try done.
    + by destruct (H4 code reason body).
    + by destruct (H3 reason).
Qed.

Lemma download_failure_gen1_witness :
  Gen1.request_image
    (demo_world with_key [bold] url_reply (Raises (OtherError (u "TimeoutError"))))
    (u "sk-test") (u "a bold letter T") fresh
  = (with_fetch (JStr (u "https://x/y.png"))
       (posted (u "sk-test") (u "a bold letter T") fresh),
     Raises (OtherError (u "TimeoutError"))).
Proof.
  refine (proj2 (proj2 (download_failure_gen1
                   (demo_world with_key [bold] url_reply (Raises (OtherError (u "TimeoutError"))))
                   (u "sk-test") (u "a bold letter T") fresh _
                   JNull (JStr (u "https://x/y.png")) (OtherError (u "TimeoutError"))
                   _ _ _ _ _)) _ _); try reflexivity; done.
Defined.

(** ** What the loops write and post *)

Lemma request1_files w key prompt st :
  files (Gen1.request_image w key prompt st).1 = files st.
Proof. by destruct (request_image_effect w key prompt st) as [(? & _) _]. Qed.

Lemma request2_files w key prompt st :
  files (Gen2.request_image w key prompt st).1 = files st.
Proof. by destruct (request_image_effect w key prompt st) as [_ (? & _)]. Qed.


Lemma request2_posts w key prompt st :
  posts (Gen2.request_image w key prompt st).1
  = posts st ++ [(request_auth key, request_body prompt)].
Proof. by destruct (request_image_effect w key prompt st) as [_ (_ & _ & ?)]. Qed.

(** The loop of [generate.py] writes at its targets only. *)
Lemma loop1_frame w dir key prompts : forall items st k,
  k ∉ targets fname1 dir prompts ->
  files (Gen1.main_loop w dir key prompts items st).1 !! k = files st !! k.
Proof.
  induction prompts as [|p rest IH]; intros items st k Hk; [done|].
  apply not_elem_of_cons in Hk as [Hp Hk].
  pose proof (request1_files w key (p_prompt p) st) as Hf.
  destruct (Gen1.request_image w key (p_prompt p) st) as [st1 [img|e]] eqn:E;
    simpl in Hf.
  - rewrite (loop1_step _ _ _ _ _ _ _ _ _ E), (IH _ _ _ Hk). simpl.
    by rewrite lookup_insert_ne, Hf.
  - rewrite (loop1_abort _ _ _ _ _ _ _ _ _ E). simpl. by rewrite Hf.
Qed.

Lemma loop2_frame w dir key prompts : forall items st k,
  k ∉ targets fname2 dir prompts ->
  files (Gen2.main_loop w dir key prompts items st).1 !! k = files st !! k.
Proof.
  induction prompts as [|p rest IH]; intros items st k Hk; [done|].
  apply not_elem_of_cons in Hk as [Hp Hk].
  destruct (present st dir (fname2 p)) eqn:P.
  { rewrite (loop2_skip _ _ _ _ _ _ _ P). by apply IH. }
  pose proof (request2_files w key (p_prompt p) st) as Hf.
  destruct (Gen2.request_image w key (p_prompt p) st) as [st1 [img|e]] eqn:E;
    simpl in Hf.
  - rewrite (loop2_step _ _ _ _ _ _ _ _ _ P E), (IH _ _ _ Hk). simpl.
    by rewrite lookup_insert_ne, Hf.
  - rewrite (loop2_abort _ _ _ _ _ _ _ _ _ P E). simpl. by rewrite Hf.
Qed.

(** No loop removes a file. *)
Lemma loop1_keeps w dir key prompts : forall items st d name,
  stored st d name ->
  stored (Gen1.main_loop w dir key prompts items st).1 d name.
Proof.
  unfold stored.
  induction prompts as [|p rest IH]; intros items st d name Hs; [done|].
  pose proof (request1_files w key (p_prompt p) st) as Hf.
  destruct (Gen1.request_image w key (p_prompt p) st) as [st1 [img|e]] eqn:E;
    simpl in Hf.
  - rewrite (loop1_step _ _ _ _ _ _ _ _ _ E). apply IH. simpl.
    rewrite lookup_insert. case_decide; [done | by rewrite Hf].
  - rewrite (loop1_abort _ _ _ _ _ _ _ _ _ E). simpl. by rewrite Hf.
Qed.

Lemma loop2_keeps w dir key prompts : forall items st d name,
  stored st d name ->
  stored (Gen2.main_loop w dir key prompts items st).1 d name.
Proof.
  unfold stored.
  induction prompts as [|p rest IH]; intros items st d name Hs; [done|].
  destruct (present st dir (fname2 p)) eqn:P.
  { rewrite (loop2_skip _ _ _ _ _ _ _ P). by apply IH. }
  pose proof (request2_files w key (p_prompt p) st) as Hf.
  destruct (Gen2.request_image w key (p_prompt p) st) as [st1 [img|e]] eqn:E;
    simpl in Hf.
  - rewrite (loop2_step _ _ _ _ _ _ _ _ _ P E). apply IH. simpl.
    rewrite lookup_insert. case_decide; [done | by rewrite Hf].
  - rewrite (loop2_abort _ _ _ _ _ _ _ _ _ P E). simpl. by rewrite Hf.
Qed.

Lemma present_stored st dir name : present st dir name = true -> stored st dir name.
Proof. unfold present, stored. by destruct (files st !! (dir, name)). Qed.

(** A loop that comes to its end leaves a file for every record. *)
Lemma loop1_stores w dir key prompts : forall items st st' items',
  Gen1.main_loop w dir key prompts items st = (st', Returns items') ->
  forall p, p ∈ prompts -> stored st' dir (fname1 p).
Proof.
  induction prompts as [|p rest IH]; intros items st st' items' L q Hq;
    [by apply elem_of_nil in Hq|].
  destruct (Gen1.request_image w key (p_prompt p) st) as [st1 [img|e]] eqn:E;
    [|by rewrite (loop1_abort _ _ _ _ _ _ _ _ _ E) in L].
  rewrite (loop1_step _ _ _ _ _ _ _ _ _ E) in L.
  apply elem_of_cons in Hq as [-> | Hq]; [|by eapply IH].
  replace st' with (Gen1.main_loop w dir key rest (items ++ [item_of fname1 p])
                      (with_file dir (fname1 p) (Bytes img) st1)).1 by by rewrite L.
  apply loop1_keeps. unfold stored. simpl. by rewrite lookup_insert_eq.
Qed.

Lemma loop2_stores w dir key prompts : forall items st st' items',
  Gen2.main_loop w dir key prompts items st = (st', Returns items') ->
  forall p, p ∈ prompts -> stored st' dir (fname2 p).
Proof.
  induction prompts as [|p rest IH]; intros items st st' items' L q Hq;
    [by apply elem_of_nil in Hq|].
  destruct (present st dir (fname2 p)) eqn:P.
  { rewrite (loop2_skip _ _ _ _ _ _ _ P) in L.
    apply elem_of_cons in Hq as [-> | Hq]; [|by eapply IH].
    replace st' with (Gen2.main_loop w dir key rest (items ++ [item_of fname2 p]) st).1
      by by rewrite L.
    by apply loop2_keeps, present_stored. }
  destruct (Gen2.request_image w key (p_prompt p) st) as [st1 [img|e]] eqn:E;
    [|by rewrite (loop2_abort _ _ _ _ _ _ _ _ _ P E) in L].
  rewrite (loop2_step _ _ _ _ _ _ _ _ _ P E) in L.
  apply elem_of_cons in Hq as [-> | Hq]; [|by eapply IH].
  replace st' with (Gen2.main_loop w dir key rest (items ++ [item_of fname2 p])
                      (with_file dir (fname2 p) (Bytes img) st1)).1 by by rewrite L.
  apply loop2_keeps. unfold stored. simpl. by rewrite lookup_insert_eq.
Qed.


Lemma filter_sublist_impl {A} (f g : A -> bool) (l : list A) :
  (forall x, x ∈ l -> f x = true -> g x = true) ->
  List.filter f l `sublist_of` List.filter g l.
Proof.
  induction l as [|x l IH]; intros H; [done|]. simpl.
  assert (List.filter f l `sublist_of` List.filter g l) as Hl.
  { apply IH. intros y Hy. apply H. by right. }
  destruct (f x) eqn:Ef.
  - rewrite (H x ltac:(by left) Ef). by apply sublist_skip.
  - destruct (g x); [by apply sublist_cons | done].
Qed.

(** A file that is there and not empty stays so when another record's
    file is written. *)
Lemma present_after_write st st1 dir p q img :
  files st1 = files st ->
  present st dir (fname2 p) = false ->
  present st dir (fname2 q) = true ->
  present (with_file dir (fname2 p) (Bytes img) st1) dir (fname2 q) = true.
Proof.
  intros Hf Hp Hq. rewrite present_with_file_ne.
  - by rewrite (present_files_eq st st1).
  - intros Heq. rewrite Heq in Hp. congruence.
Qed.

(** The loop of [generate2.py] posts at most one request per record, in
    order, and none for a record whose file was there and not empty at the
    start. *)
Lemma loop2_posts w dir key prompts : forall items st,
  exists l,
    posts (Gen2.main_loop w dir key prompts items st).1
    = posts st ++ map (request_of key) l
    /\ l `sublist_of` List.filter (missing st dir) prompts.
Proof.
  induction prompts as [|p rest IH]; intros items st.
  - exists []. simpl. by rewrite app_nil_r.
  - destruct (present st dir (fname2 p)) eqn:P.
    { rewrite (loop2_skip _ _ _ _ _ _ _ P).
      replace (List.filter (missing st dir) (p :: rest))
        with (List.filter (missing st dir) rest)
        by (simpl; unfold missing at 2; by rewrite P).
      apply IH. }
    replace (List.filter (missing st dir) (p :: rest))
      with (p :: List.filter (missing st dir) rest)
      by (simpl; unfold missing at 2; by rewrite P).
    pose proof (request2_posts w key (p_prompt p) st) as Hp.
    pose proof (request2_files w key (p_prompt p) st) as Hf.
    destruct (Gen2.request_image w key (p_prompt p) st) as [st1 [img|e]] eqn:E;
      simpl in Hp, Hf.
    + rewrite (loop2_step _ _ _ _ _ _ _ _ _ P E).
      destruct (IH (items ++ [item_of fname2 p]) (with_file dir (fname2 p) (Bytes img) st1))
        as (l & Hposts & Hl).
      exists (p :: l). split.
      * rewrite Hposts. simpl. by rewrite Hp, <- app_assoc.
      * apply sublist_skip. etrans; [exact Hl|].
        apply filter_sublist_impl. intros q _. unfold missing.
        rewrite !negb_true_iff. intros Hq.
        destruct (present st dir (fname2 q)) eqn:Pq; [|done].
        by rewrite (present_after_write st st1 dir p q img Hf P Pq) in Hq.
    + rewrite (loop2_abort _ _ _ _ _ _ _ _ _ P E).
      exists [p]. split; [simpl; by rewrite Hp|].
      apply sublist_skip, sublist_nil_l.
Qed.



(** ** Whole runs *)

Lemma reserved_not_target n dir prompts :
  ((dir, u "generated.json") ∉ targets (fname_cut n) dir prompts)
  /\ ((dir, u "index.html") ∉ targets (fname_cut n) dir prompts).
Proof.
  unfold targets.
  split; intros Hin; apply list_elem_of_In, List.in_map_iff in Hin as (p & Heq & _);
    injection Heq as Heq; by destruct (fname_not_reserved n p).
Qed.

Lemma stored_with_file st d name d' name' x :
  stored st d name -> stored (with_file d' name' x st) d name.
Proof.
  unfold stored. simpl. intros H. rewrite lookup_insert. by case_decide.
Qed.



(** X13. [generate2.py] posts at most one request per record, in the order
    of the file, and none for a record whose file was there and not empty
    when the run began; this holds for runs that stop at a failure as
    well. *)
Theorem generate2_posts_missing_only (w : world) (st : state)
    (prompts : list PromptRecord) :
  credential w <> [] ->
  read_prompts w (u "prompts2-lockup.json") = Returns prompts ->
  exists l,
    posts (Gen2.main w st).1 = posts st ++ map (request_of (credential w)) l
    /\ l `sublist_of` List.filter (missing st (Gen2.out_dir_of w)) prompts.
Proof.
  intros Hk Hread. rewrite (main2_unfold w st Hk), Hread.
  destruct (creatable st _).
  2: { exists []. simpl. split; [by rewrite app_nil_r | apply sublist_nil_l]. }
  destruct (loop2_posts w (Gen2.out_dir_of w) (credential w) prompts [] st)
    as (l & Hposts & Hl).
  exists l. split; [|done].
  destruct (Gen2.main_loop _ _ _ _ _ _) as [st1 [items|e]]; [|done].
  by destruct (encodable _).
Qed.

Lemma generate2_posts_missing_only_witness :
  exists l,
    posts (Gen2.main (offline resuming [bold; serif; bold_again]) earlier_run).1
    = map (request_of (u "sk-test")) l
    /\ l `sublist_of` [serif].
Proof.
  destruct (generate2_posts_missing_only
              (offline resuming [bold; serif; bold_again]) earlier_run
              [bold; serif; bold_again]) as (l & Hposts & Hl).
  - vm_compute. discriminate.
  - reflexivity.
  - exists l. split; [exact Hposts | exact Hl].
Defined.





Lemma loop1_reserved w dir key prompts items st d :
  manifest_at (Gen1.main_loop w dir key prompts items st).1 d = manifest_at st d
  /\ gallery_at (Gen1.main_loop w dir key prompts items st).1 d = gallery_at st d.
Proof.
  assert (forall name, name = u "generated.json" \/ name = u "index.html" ->
            (d, name) ∉ targets fname1 dir prompts) as Hn.
  { intros name Hname Hin.
    apply list_elem_of_In, List.in_map_iff in Hin as (p & Heq & _).
    injection Heq as _ Heq. destruct (fname_not_reserved 60 p) as [Hg Hi].
    destruct Hname as [-> | ->]; done. }
  unfold manifest_at, gallery_at. split; [apply loop1_frame, Hn; by left | apply loop1_frame, Hn; by right].
Qed.

Lemma loop2_reserved w dir key prompts items st d :
  manifest_at (Gen2.main_loop w dir key prompts items st).1 d = manifest_at st d
  /\ gallery_at (Gen2.main_loop w dir key prompts items st).1 d = gallery_at st d.
Proof.
  assert (forall name, name = u "generated.json" \/ name = u "index.html" ->
            (d, name) ∉ targets fname2 dir prompts) as Hn.
  { intros name Hname Hin.
    apply list_elem_of_In, List.in_map_iff in Hin as (p & Heq & _).
    injection Heq as _ Heq. destruct (fname_not_reserved 70 p) as [Hg Hi].
    destruct Hname as [-> | ->]; done. }
  unfold manifest_at, gallery_at. split; [apply loop2_frame, Hn; by left | apply loop2_frame, Hn; by right].
Qed.

Lemma spoilt_other dir items st d :
  d <> dir ->
  manifest_at (spoilt dir items st) d = manifest_at st d
  /\ gallery_at (spoilt dir items st) d = gallery_at st d.
Proof.
  intros Hd. unfold manifest_at, gallery_at, spoilt. simpl.
  split; rewrite !lookup_insert_ne; congruence.
Qed.

(** X15. A run that stops with an exception leaves [generated.json] and
    [index.html] as they were, in every directory, with one exception: when
    the page holds a surrogate, which UTF-8 does not encode, the run stops
    at the write of the page with [UnicodeEncodeError], after the manifest
    of all records was written, and leaves [index.html] empty. *)
Theorem failed_run_manifest_and_page (w : world) (st st' : state) (e : exn) (d : str) :
  (Gen1.main w st = (st', Raises e) ->
   (manifest_at st' d = manifest_at st d /\ gallery_at st' d = gallery_at st d)
   \/ exists prompts,
        read_prompts w (u "prompts.json") = Returns prompts
        /\ encodable (Gen1.gallery_html d (map (item_of fname1) prompts)) = false
        /\ e = UnicodeEncodeError /\ d = u "out/" ++ now w
        /\ manifest_at st' d = Some (Text (manifest_text (map (item_of fname1) prompts)))
        /\ gallery_at st' d = Some (Text []))
  /\ (Gen2.main w st = (st', Raises e) ->
      (manifest_at st' d = manifest_at st d /\ gallery_at st' d = gallery_at st d)
      \/ exists prompts,
           read_prompts w (u "prompts2-lockup.json") = Returns prompts
           /\ encodable (Gen2.gallery_html (map (item_of fname2) prompts)) = false
           /\ e = UnicodeEncodeError /\ d = Gen2.out_dir_of w
           /\ manifest_at st' d
              = Some (Text (manifest_text (map (item_of fname2) prompts)))
           /\ gallery_at st' d = Some (Text [])).
Proof.
  assert (credential w = [] ->
          Gen1.main w st <> (st', Raises e) /\ Gen2.main w st <> (st', Raises e)) as Hblank.
  { intros Hk. destruct (main_blank w st Hk) as [-> ->]. done. }
  split; intros H.
  - destruct (decide (credential w = [])) as [Hk|Hk]; [by destruct (Hblank Hk)|].
    rewrite (main1_unfold w st Hk) in H.
    remember (u "out/" ++ now w) as dir eqn:Hdir.
    destruct (read_prompts w (u "prompts.json")) as [prompts|e'];
      [|left; by injection H as <-].
    destruct (creatable st _); [|left; by injection H as <-].
    pose proof (loop1_reserved w dir (credential w) prompts [] st d) as Hl.
    destruct (Gen1.main_loop _ _ _ _ _ _) as [st1 [items|e']] eqn:L;
      [|left; by injection H as <-].
    pose proof (loop1_returns _ _ _ _ _ _ _ _ L) as Hi. simpl in Hi, Hl. subst items.
    destruct (encodable _) eqn:En; [done|]. injection H as <- <-.
    destruct (decide (d = dir)) as [->|Hd].
    + right. exists prompts. repeat split; try done.
      * apply manifest_kept.
      * unfold gallery_at, spoilt. simpl. apply lookup_insert_eq.
    + left. destruct (spoilt_other _ (map (item_of fname1) prompts) st1 d Hd) as [-> ->].
      exact Hl.
  - destruct (decide (credential w = [])) as [Hk|Hk]; [by destruct (Hblank Hk)|].
    rewrite (main2_unfold w st Hk) in H.
    remember (Gen2.out_dir_of w) as dir eqn:Hdir.
    destruct (read_prompts w (u "prompts2-lockup.json")) as [prompts|e'];
      [|left; by injection H as <-].
    destruct (creatable st _); [|left; by injection H as <-].
    pose proof (loop2_reserved w dir (credential w) prompts [] st d) as Hl.
    destruct (Gen2.main_loop _ _ _ _ _ _) as [st1 [items|e']] eqn:L;
      [|left; by injection H as <-].
    pose proof (loop2_returns _ _ _ _ _ _ _ _ L) as Hi. simpl in Hi, Hl. subst items.
    destruct (encodable _) eqn:En; [done|]. injection H as <- <-.
    destruct (decide (d = dir)) as [->|Hd].
    + right. exists prompts. repeat split; try done.
      * apply manifest_kept.
      * unfold gallery_at, spoilt. simpl. apply lookup_insert_eq.
    + left. destruct (spoilt_other _ (map (item_of fname2) prompts) st1 d Hd) as [-> ->].
      exact Hl.
Qed.

Lemma failed_run_manifest_and_page_witness :
  (manifest_at (Gen2.main (offline resuming [bold; serif]) earlier_run).1 (u "out/earlier")
   = None
   /\ gallery_at (Gen2.main (offline resuming [bold; serif]) earlier_run).1
        (u "out/earlier") = None)
  /\ (Gen1.main (demo_world with_key [broken] inline_reply (Returns png)) fresh).2
     = Raises UnicodeEncodeError
  /\ manifest_at (Gen1.main (demo_world with_key [broken] inline_reply (Returns png))
                    fresh).1 (u "out/2025-01-02-03-04-05")
     = Some (Text (manifest_text (map (item_of fname1) [broken])))
  /\ gallery_at (Gen1.main (demo_world with_key [broken] inline_reply (Returns png))
                   fresh).1 (u "out/2025-01-02-03-04-05")
     = Some (Text []).
Proof.
  split.
  - destruct (proj2 (failed_run_manifest_and_page
                       (offline resuming [bold; serif]) earlier_run
                       (Gen2.main (offline resuming [bold; serif]) earlier_run).1
                       (URLError (u "Network is unreachable")) (u "out/earlier")))
      as [Hsame | (prompts & _ & _ & He & _)]; [vm_refl | exact Hsame | discriminate He].
  - destruct (proj1 (failed_run_manifest_and_page
                       (demo_world with_key [broken] inline_reply (Returns png)) fresh
                       (Gen1.main (demo_world with_key [broken] inline_reply (Returns png))
                          fresh).1
                       UnicodeEncodeError (u "out/2025-01-02-03-04-05")))
      as [[Hm _] | (prompts & [= <-] & _ & _ & _ & Hm & Hg)]; [vm_refl | |].
    + exfalso. revert Hm. apply (bool_decide_eq_false_1 _). vm_refl.
    + split; [vm_refl|]. split; [exact Hm | exact Hg].
Defined.

(** X16. A run that ends with status 0 leaves, in its output directory, a
    file for every record of the prompts file, beside the manifest and the
    gallery page: no entry of the manifest names a file that is not
    there. *)
Theorem completed_run_has_every_file (w : world) (st st' : state) :
  (Gen1.main w st = (st', Returns 0%Z) ->
   exists prompts,
     read_prompts w (u "prompts.json") = Returns prompts
     /\ (forall it, it ∈ map (item_of fname1) prompts ->
           stored st' (u "out/" ++ now w) (it_file it))
     /\ stored st' (u "out/" ++ now w) (u "generated.json")
     /\ stored st' (u "out/" ++ now w) (u "index.html"))
  /\ (Gen2.main w st = (st', Returns 0%Z) ->
      exists prompts,
        read_prompts w (u "prompts2-lockup.json") = Returns prompts
        /\ (forall it, it ∈ map (item_of fname2) prompts ->
              stored st' (Gen2.out_dir_of w) (it_file it))
        /\ stored st' (Gen2.out_dir_of w) (u "generated.json")
        /\ stored st' (Gen2.out_dir_of w) (u "index.html")).
Proof.
  split; intros H.
  - destruct (main1_zero w st st' H) as (Hk & prompts & st1 & Hr & _ & L & _ & ->).
    exists prompts. split; [done|]. split; [|split].
    + intros it Hit. apply list_elem_of_In, List.in_map_iff in Hit as (p & <- & Hp).
      apply list_elem_of_In in Hp. simpl.
      do 2 apply stored_with_file. by apply (loop1_stores _ _ _ _ _ _ _ _ L).
    + apply stored_with_file. unfold stored. simpl. by rewrite lookup_insert_eq.
    + unfold stored. simpl. by rewrite lookup_insert_eq.
  - destruct (main2_zero w st st' H) as (Hk & prompts & st1 & Hr & _ & L & _ & ->).
    exists prompts. split; [done|]. split; [|split].
    + intros it Hit. apply list_elem_of_In, List.in_map_iff in Hit as (p & <- & Hp).
      apply list_elem_of_In in Hp. simpl.
      do 2 apply stored_with_file. by apply (loop2_stores _ _ _ _ _ _ _ _ L).
    + apply stored_with_file. unfold stored. simpl. by rewrite lookup_insert_eq.
    + unfold stored. simpl. by rewrite lookup_insert_eq.
Qed.

Lemma completed_run_has_every_file_witness :
  exists prompts,
    read_prompts (demo_world with_key [bold; serif] inline_reply (Returns png))
      (u "prompts.json") = Returns prompts
    /\ (forall it, it ∈ map (item_of fname1) prompts ->
          stored (Gen1.main (demo_world with_key [bold; serif] inline_reply (Returns png))
                    fresh).1
            (u "out/" ++ now (demo_world with_key [bold; serif] inline_reply (Returns png)))
            (it_file it))
    /\ stored (Gen1.main (demo_world with_key [bold; serif] inline_reply (Returns png))
                 fresh).1
         (u "out/" ++ now (demo_world with_key [bold; serif] inline_reply (Returns png)))
         (u "generated.json")
    /\ stored (Gen1.main (demo_world with_key [bold; serif] inline_reply (Returns png))
                 fresh).1
         (u "out/" ++ now (demo_world with_key [bold; serif] inline_reply (Returns png)))
         (u "index.html").
Proof.
  apply (proj1 (completed_run_has_every_file
                  (demo_world with_key [bold; serif] inline_reply (Returns png)) fresh
                  (Gen1.main (demo_world with_key [bold; serif] inline_reply (Returns png))
                     fresh).1)).
  vm_refl.
Defined.

(** ** Pages that UTF-8 encodes *)








(** ** Directories that can be made *)













(** X20. The exit status of either script is 0, 1 or 2; it is 2 exactly
    when the credential is missing or blank, 1 exactly when the run stopped
    with an exception, and a status 0 means that the manifest of all
    records of the prompts file has been written. *)
Theorem exit_status_meaning (w : world) (st : state) :
  ((exit_status (Gen1.main w) st).2 = 0%Z \/ (exit_status (Gen1.main w) st).2 = 1%Z
   \/ (exit_status (Gen1.main w) st).2 = 2%Z)
  /\ ((exit_status (Gen2.main w) st).2 = 0%Z \/ (exit_status (Gen2.main w) st).2 = 1%Z
      \/ (exit_status (Gen2.main w) st).2 = 2%Z)
  /\ ((exit_status (Gen1.main w) st).2 = 2%Z <-> credential w = [])
  /\ ((exit_status (Gen2.main w) st).2 = 2%Z <-> credential w = [])
  /\ ((exit_status (Gen1.main w) st).2 = 1%Z <-> exists e, (Gen1.main w st).2 = Raises e)
  /\ ((exit_status (Gen2.main w) st).2 = 1%Z <-> exists e, (Gen2.main w st).2 = Raises e)
  /\ ((exit_status (Gen1.main w) st).2 = 0%Z ->
      exists prompts,
        read_prompts w (u "prompts.json") = Returns prompts
        /\ manifest_at (exit_status (Gen1.main w) st).1 (u "out/" ++ now w)
           = Some (Text (manifest_text (map (item_of fname1) prompts))))
  /\ ((exit_status (Gen2.main w) st).2 = 0%Z ->
      exists prompts,
        read_prompts w (u "prompts2-lockup.json") = Returns prompts
        /\ manifest_at (exit_status (Gen2.main w) st).1 (Gen2.out_dir_of w)
           = Some (Text (manifest_text (map (item_of fname2) prompts)))).
Proof.
  unfold exit_status.
  destruct (decide (credential w = [])) as [Hk|Hk].
  { destruct (main_blank w st Hk) as [-> ->]. simpl.
    repeat match goal with |- _ /\ _ => split end;
      try tauto; try done; try (split; [done|intros [e He]; done]). }
  pose proof (main1_returns w st) as R1. pose proof (main2_returns w st) as R2.
  destruct (Gen1.main w st) as [s1 [c1|x1]]; destruct (Gen2.main w st) as [s2 [c2|x2]];
    simpl;
    try (destruct (R1 _ _ Hk eq_refl) as [-> M1]);
    try (destruct (R2 _ _ Hk eq_refl) as [-> M2]);
    repeat match goal with |- _ /\ _ => split end;
    try tauto; try done;
    try (split; [done | by intros [e He]]);
    try (split; [by eexists | done]).
Qed.

(** X21. [generated.json] and the body of a request are plain ASCII
    whatever the titles and prompts contain: [json.dumps] escapes every
    other code point, so the manifest holds printable characters and line
    feeds only, and a request body is one line of printable characters. *)
Theorem json_output_is_ascii (items : list GeneratedItem) (prompt : str) :
  Forall (fun c => plain_text c = true) (manifest_text items)
  /\ Forall (fun c => printable c = true) (request_body prompt).
Proof.
  split.
  - unfold manifest_text, Json.dumps.
    destruct items as [|it its]; [by apply (bool_decide_unpack _)|].
    change (Forall (fun c => plain_text c = true)
              (u "[" ++ (nl ++ replicate 2 32)
               ++ Str.join (u "," ++ nl ++ replicate 2 32)
                    (map (Json.dumps_at (Some 2%nat) 1) (map item_json (it :: its)))
               ++ (nl ++ replicate 0 32) ++ u "]")).
    rewrite !Forall_app.
    repeat split; try by apply (bool_decide_unpack _).
    apply join_forall; [by apply (bool_decide_unpack _)|].
    rewrite map_map. apply Forall_map, Forall_forall. intros x _.
    apply item_json_plain.
  - unfold request_body, request_body_with, Json.dumps.
    cbn [Json.dumps_at map Str.join].
    rewrite !Forall_app.
    repeat split;
      first [ apply dumps_str_printable | apply of_int_printable
            | by apply (bool_decide_unpack _) ].
Qed.

(** ** Requests and downloads *)





(** ** The page of a run *)

Lemma fname_no_figure n p : figure_count (fname_cut n p) = 0%nat.
Proof.
  change (u "<figure>") with (60 :: u "figure>").
  apply occurrences_free. intros Hin.
  pose proof (fname_chars n p) as Hc. rewrite Forall_forall in Hc.
  by apply Hc in Hin.
Qed.

(** X23. The page of a run that ended with status 0 is the gallery of the
    entries of its manifest, and it shows one [<figure>] for every record of
    the prompts file when no title (in [generate.py]: no title, no prompt
    and not the name of the directory) holds the text [<figure>]: a file
    name never does. *)
Theorem completed_run_gallery (w : world) (st st' : state)
    (prompts : list PromptRecord) :
  (Gen1.main w st = (st', Returns 0%Z) ->
   read_prompts w (u "prompts.json") = Returns prompts ->
   gallery_at st' (u "out/" ++ now w)
   = Some (Text (Gen1.gallery_html (u "out/" ++ now w) (map (item_of fname1) prompts)))
   /\ (figure_count (u "out/" ++ now w) = 0%nat ->
       (forall p, p ∈ prompts ->
          figure_count (p_title p) = 0%nat /\ figure_count (p_prompt p) = 0%nat) ->
       figure_count (Gen1.gallery_html (u "out/" ++ now w) (map (item_of fname1) prompts))
       = length prompts))
  /\ (Gen2.main w st = (st', Returns 0%Z) ->
      read_prompts w (u "prompts2-lockup.json") = Returns prompts ->
      gallery_at st' (Gen2.out_dir_of w)
      = Some (Text (Gen2.gallery_html (map (item_of fname2) prompts)))
      /\ ((forall p, p ∈ prompts -> figure_count (p_title p) = 0%nat) ->
          figure_count (Gen2.gallery_html (map (item_of fname2) prompts))
          = length prompts)).
Proof.
  split; intros H Hr.
  - destruct (main1_zero w st st' H) as (Hk & prompts' & st1 & Hr' & _ & _ & _ & ->).
    rewrite Hr in Hr'. injection Hr' as <-.
    split; [unfold gallery_at; simpl; by rewrite lookup_insert_eq|].
    intros Hd Hp. rewrite count_page1, length_map; [done..|].
    apply Forall_map, Forall_forall. intros p Hin. destruct (Hp p Hin) as [Ht Hq].
    split; [apply fname_no_figure | by split].
  - destruct (main2_zero w st st' H) as (Hk & prompts' & st1 & Hr' & _ & _ & _ & ->).
    rewrite Hr in Hr'. injection Hr' as <-.
    split; [unfold gallery_at; simpl; by rewrite lookup_insert_eq|].
    intros Hp. rewrite count_page2, length_map; [done|].
    apply Forall_map, Forall_forall. intros p Hin.
    split; [apply fname_no_figure | by apply Hp].
Qed.

Lemma completed_run_gallery_witness :
  gallery_at resumed_demo.1
    (Gen2.out_dir_of (demo_world resuming [bold; serif] inline_reply (Returns png)))
  = Some (Text (Gen2.gallery_html (map (item_of fname2) [bold; serif])))
  /\ figure_count (Gen2.gallery_html (map (item_of fname2) [bold; serif])) = 2%nat.
Proof.
  destruct (proj2 (completed_run_gallery
                     (demo_world resuming [bold; serif] inline_reply (Returns png))
                     earlier_run resumed_demo.1 [bold; serif]))
    as [Hpage Hcount]; [vm_refl | reflexivity |].
  split; [exact Hpage|]. apply Hcount.
  intros p Hp. apply elem_of_cons in Hp as [-> | Hp]; [vm_refl|].
  apply elem_of_cons in Hp as [-> | Hp]; [vm_refl|].
  apply elem_of_nil in Hp. destruct Hp.
Defined.

(** ** The resumed run *)




